(** * vdrone.ino: camera recognition with ELTRES payload transmission

    A shallow embedding of the sketch [src/vdrone.ino] and the properties
    of its payload encoder, frame preprocessing, start-up sequence, radio
    event handler and main cycle.

    The sketch keeps its state in global variables and talks to the camera,
    the inference runtime and the ELTRES add-on board through library calls.
    Globals become the record [State]; every library call that returns data
    to the sketch reads it from an environment record supplied by the
    caller; every externally visible call (serial output, indicator writes,
    the payload hand-off) is recorded as an [effect]. *)

From Stdlib Require Import ZArith Lia Bool List String.
From Stdlib Require Import Floats.SpecFloat.
From stdpp Require Import base list.
Import ListNotations.

Local Open Scope Z_scope.

(** ** Machine integers *)

Module MachInt.

(** Conversion to an unsigned [w]-bit integer. *)
Definition wrap_unsigned (w : Z) (z : Z) : Z := z mod 2 ^ w.

(** Conversion to a signed [w]-bit integer (two's complement). *)
Definition wrap_signed (w : Z) (z : Z) : Z :=
  (z + 2 ^ (w - 1)) mod 2 ^ w - 2 ^ (w - 1).

Definition u8 : Z -> Z := wrap_unsigned 8.
Definition u32 : Z -> Z := wrap_unsigned 32.
Definition u64 : Z -> Z := wrap_unsigned 64.
Definition s16 : Z -> Z := wrap_signed 16.

(** Big-endian reading of four bytes. *)
Definition be32 (b0 b1 b2 b3 : Z) : Z :=
  b0 * 2 ^ 24 + b1 * 2 ^ 16 + b2 * 2 ^ 8 + b3.

End MachInt.
Import MachInt.

(** ** Constants of the sketch *)

Definition INPUT_WIDTH : Z := 56.
Definition INPUT_HEIGHT : Z := 56.
Definition INPUT_RESIZE_RATIO : Z := 4.

(** [CAM_IMGSIZE_QVGA_H] and [CAM_IMGSIZE_QVGA_V] come from the camera
    library header, which is not part of the sketch: QVGA is 320 x 240. *)
Definition CAM_IMGSIZE_QVGA_H : Z := 320.
Definition CAM_IMGSIZE_QVGA_V : Z := 240.

Definition PICTURE_WIDTH : Z := CAM_IMGSIZE_QVGA_H.
Definition PICTURE_HEIGTH : Z := CAM_IMGSIZE_QVGA_V.
Definition PICTURE_CLIP_WIDTH : Z := INPUT_WIDTH * INPUT_RESIZE_RATIO.
Definition PICTURE_CLIP_HEIGHT : Z := INPUT_HEIGHT * INPUT_RESIZE_RATIO.

Definition PROGRAM_STS_INIT : Z := 0.
Definition PROGRAM_STS_RUNNING : Z := 1.
Definition PROGRAM_STS_STOPPED : Z := 3.

(** Success codes of the library calls (library headers, not in the
    sketch); the sketch only ever compares against them. *)
Definition ELTRES_BOARD_RESULT_OK : Z := 0.
Definition CAM_ERR_SUCCESS : Z := 0.

Definition LOW : bool := false.
Definition HIGH : bool := true.

(** ** IEEE 754 values *)

Module Flt.

(** [float] is binary32, [double] is binary64. *)
Definition prec32 : Z := 24.
Definition emax32 : Z := 128.
Definition prec64 : Z := 53.
Definition emax64 : Z := 1024.

(** Integer to [double]. *)
Definition double_of_Z (z : Z) : spec_float :=
  binary_normalize prec64 emax64 z 0 false.

(** Narrowing conversion [double] to [float], round to nearest even. *)
Definition float_of_double (d : spec_float) : spec_float :=
  match d with
  | S754_finite s m e =>
      binary_normalize prec32 emax32 (cond_Zopp s (Zpos m)) e s
  | _ => d
  end.

Definition float_of_Z (z : Z) : spec_float :=
  binary_normalize prec32 emax32 z 0 false.

Definition ddiv : spec_float -> spec_float -> spec_float :=
  SFdiv prec64 emax64.

(** A [float] used as a condition: true unless it compares equal to
    zero (so a NaN is true and both zeros are false). *)
Definition truthy (v : spec_float) : bool :=
  negb (SFeqb v (S754_zero false)).

End Flt.

(** ** Global state, environment and effects *)

Inductive pin : Set := LED_RUN | LED_GNSS | LED_SND | LED_ERR.

Inductive eltres_board_event : Set :=
| ELTRES_BOARD_EVT_GNSS_TMOUT
| ELTRES_BOARD_EVT_IDLE
| ELTRES_BOARD_EVT_SEND_READY
| ELTRES_BOARD_EVT_SENDING
| ELTRES_BOARD_EVT_GNSS_UNRECEIVE
| ELTRES_BOARD_EVT_GNSS_RECEIVE
| ELTRES_BOARD_EVT_FAULT.

(** The GGA record delivered by the board.  Its declaration is in the
    board library; the fields are the ones the sketch reads. *)
Record eltres_board_gga_info : Type := {
  m_utc : string;
  m_n_s : string;
  m_lat : string;
  m_e_w : string;
  m_lon : string;
  m_pos_status : Z;
  m_sat_used : Z;
  m_hdop : spec_float;
  m_height : spec_float;
  m_geoid : spec_float
}.

Definition gga_zero : eltres_board_gga_info :=
  {| m_utc := EmptyString; m_n_s := EmptyString; m_lat := EmptyString;
     m_e_w := EmptyString; m_lon := EmptyString;
     m_pos_status := 0; m_sat_used := 0;
     m_hdop := S754_zero false; m_height := S754_zero false;
     m_geoid := S754_zero false |}.

(** Externally visible calls. *)
Inductive effect : Type :=
| SerialPrint (s : string)
| SerialPrintln (s : string)
| SerialPrintInt (z : Z)
| SerialPrintFloat (v : spec_float)
| PinModeOutput (p : pin)
| DigitalWrite (p : pin) (v : bool)
| Sleep (seconds : Z)
| ClipAndResize (lefttop_x lefttop_y rightbottom_x rightbottom_y width height : Z)
| SetPayload (bytes : list Z).

Record State : Type := {
  program_sts : Z;
  gnss_recevie_timeout : bool;
  last_change_blink_time : Z;
  event_send_ready : bool;
  payload : list Z;
  last_gga_info : eltres_board_gga_info;
  flag : Z;
  input_data : list spec_float;
  led : pin -> bool
}.

(** Values of the globals when [setup] starts. *)
Definition initial_state : State :=
  {| program_sts := PROGRAM_STS_INIT;
     gnss_recevie_timeout := false;
     last_change_blink_time := 0;
     event_send_ready := false;
     payload := replicate 16 0;
     last_gga_info := gga_zero;
     flag := 0;
     input_data := replicate (Z.to_nat (INPUT_WIDTH * INPUT_HEIGHT)) (S754_zero false);
     led := fun _ => LOW |}.

(** ** Commands: state passing with an effect log and [exit] *)

Inductive status : Set := Going | Exited.

Record result : Type := Result {
  res_status : status;
  res_state : State;
  res_effects : list effect
}.

Definition act : Type := State -> result.

Definition skip : act := fun s => Result Going s [].

Definition emit (e : effect) : act := fun s => Result Going s [e].

Definition modify (f : State -> State) : act := fun s => Result Going (f s) [].

(** [exit(0)]: the program ends, nothing after it runs. *)
Definition exit : act := fun s => Result Exited s [].

Definition and_then (a b : act) : act := fun s =>
  match a s with
  | Result Going s1 e1 =>
      match b s1 with
      | Result st s2 e2 => Result st s2 (e1 ++ e2)
      end
  | Result Exited s1 e1 => Result Exited s1 e1
  end.

Declare Scope act_scope.
Delimit Scope act_scope with act.
Bind Scope act_scope with act.
Notation "a ;; b" := (and_then a b) (at level 100, b at level 200, right associativity) : act_scope.
Local Open Scope act_scope.

(** A branch on the current value of a global. *)
Definition ifS (c : State -> bool) (a b : act) : act := fun s =>
  if c s then a s else b s.

Definition Serial_print (t : string) : act := emit (SerialPrint t).
Definition Serial_println (t : string) : act := emit (SerialPrintln t).
Definition Serial_print_int (z : Z) : act := emit (SerialPrintInt z).
Definition Serial_println_int (z : Z) : act :=
  emit (SerialPrintInt z) ;; emit (SerialPrintln EmptyString).
Definition Serial_print_float (v : spec_float) : act := emit (SerialPrintFloat v).

Definition pin_eqb (p q : pin) : bool :=
  match p, q with
  | LED_RUN, LED_RUN | LED_GNSS, LED_GNSS
  | LED_SND, LED_SND | LED_ERR, LED_ERR => true
  | _, _ => false
  end.

Definition set_led (p : pin) (v : bool) (s : State) : State :=
  {| program_sts := program_sts s;
     gnss_recevie_timeout := gnss_recevie_timeout s;
     last_change_blink_time := last_change_blink_time s;
     event_send_ready := event_send_ready s;
     payload := payload s;
     last_gga_info := last_gga_info s;
     flag := flag s;
     input_data := input_data s;
     led := fun q => if pin_eqb p q then v else led s q |}.

Definition pinMode_output (p : pin) : act := emit (PinModeOutput p).

Definition digitalWrite (p : pin) (v : bool) : act :=
  modify (set_led p v) ;; emit (DigitalWrite p v).

(** [digitalRead] of an output pin gives the level last written. *)
Definition digitalRead (p : pin) (s : State) : bool := led s p.

Definition set_program_sts (v : Z) (s : State) : State :=
  {| program_sts := v;
     gnss_recevie_timeout := gnss_recevie_timeout s;
     last_change_blink_time := last_change_blink_time s;
     event_send_ready := event_send_ready s;
     payload := payload s;
     last_gga_info := last_gga_info s;
     flag := flag s;
     input_data := input_data s;
     led := led s |}.

Definition set_gnss_recevie_timeout (v : bool) (s : State) : State :=
  {| program_sts := program_sts s;
     gnss_recevie_timeout := v;
     last_change_blink_time := last_change_blink_time s;
     event_send_ready := event_send_ready s;
     payload := payload s;
     last_gga_info := last_gga_info s;
     flag := flag s;
     input_data := input_data s;
     led := led s |}.

Definition set_last_change_blink_time (v : Z) (s : State) : State :=
  {| program_sts := program_sts s;
     gnss_recevie_timeout := gnss_recevie_timeout s;
     last_change_blink_time := v;
     event_send_ready := event_send_ready s;
     payload := payload s;
     last_gga_info := last_gga_info s;
     flag := flag s;
     input_data := input_data s;
     led := led s |}.

Definition set_event_send_ready (v : bool) (s : State) : State :=
  {| program_sts := program_sts s;
     gnss_recevie_timeout := gnss_recevie_timeout s;
     last_change_blink_time := last_change_blink_time s;
     event_send_ready := v;
     payload := payload s;
     last_gga_info := last_gga_info s;
     flag := flag s;
     input_data := input_data s;
     led := led s |}.

Definition set_payload_buf (v : list Z) (s : State) : State :=
  {| program_sts := program_sts s;
     gnss_recevie_timeout := gnss_recevie_timeout s;
     last_change_blink_time := last_change_blink_time s;
     event_send_ready := event_send_ready s;
     payload := v;
     last_gga_info := last_gga_info s;
     flag := flag s;
     input_data := input_data s;
     led := led s |}.

Definition set_last_gga_info (v : eltres_board_gga_info) (s : State) : State :=
  {| program_sts := program_sts s;
     gnss_recevie_timeout := gnss_recevie_timeout s;
     last_change_blink_time := last_change_blink_time s;
     event_send_ready := event_send_ready s;
     payload := payload s;
     last_gga_info := v;
     flag := flag s;
     input_data := input_data s;
     led := led s |}.

Definition set_flag (v : Z) (s : State) : State :=
  {| program_sts := program_sts s;
     gnss_recevie_timeout := gnss_recevie_timeout s;
     last_change_blink_time := last_change_blink_time s;
     event_send_ready := event_send_ready s;
     payload := payload s;
     last_gga_info := last_gga_info s;
     flag := v;
     input_data := input_data s;
     led := led s |}.

Definition set_input_data (v : list spec_float) (s : State) : State :=
  {| program_sts := program_sts s;
     gnss_recevie_timeout := gnss_recevie_timeout s;
     last_change_blink_time := last_change_blink_time s;
     event_send_ready := event_send_ready s;
     payload := payload s;
     last_gga_info := last_gga_info s;
     flag := flag s;
     input_data := v;
     led := led s |}.

(** ** Payload encoder: [setup_payload_detection] *)

(** [payload[i] = v] on the 16-byte global; the stored value is converted
    to [uint8_t]. *)
Definition store_payload (i : nat) (v : Z) : act :=
  modify (fun s => set_payload_buf (<[i := u8 v]> (payload s)) s).

(** [memset(payload, 0x00, sizeof(payload))] *)
Definition memset_payload : act :=
  modify (set_payload_buf (replicate 16 0)).

(** [radio_clock] is the value of [gnss_time] after the call
    [EltresAddonBoard.get_gnss_time(&gnss_time)], whose result code the
    sketch does not look at; the parameter [flag] is an [int16_t]. *)
Definition setup_payload_detection (radio_clock : Z) (flag : Z) : act :=
  let gnss_time := u32 radio_clock in
  let utc_time := u32 (gnss_time - 18) in
  Serial_println "[setup_payload_detection]" ;;
  Serial_print "detection flag:" ;;
  Serial_print_int flag ;;
  Serial_println EmptyString ;;
  memset_payload ;;
  store_payload 0 0x8A ;;
  store_payload 1 (Z.land flag 0xff) ;;
  store_payload 10 (Z.land (Z.shiftr utc_time 24) 0xff) ;;
  store_payload 11 (Z.land (Z.shiftr utc_time 16) 0xff) ;;
  store_payload 12 (Z.land (Z.shiftr utc_time 8) 0xff) ;;
  store_payload 13 (Z.land utc_time 0xff) ;;
  store_payload 14 0x00 ;;
  (fun s => store_payload 15 (m_pos_status (last_gga_info s)) s).

(** The encoder as a function of its three inputs: the bytes left in
    [payload] when the fix information is [fixinfo]. *)
Definition encode (flag : Z) (fixinfo : eltres_board_gga_info) (radio_clock : Z)
  : list Z :=
  payload (res_state (setup_payload_detection radio_clock flag
                        (set_last_gga_info fixinfo initial_state))).

(** ** Radio event handler: [eltres_event_cb] and [gga_event_cb] *)

Definition eltres_event_cb (event : eltres_board_event) : act :=
  match event with
  | ELTRES_BOARD_EVT_GNSS_TMOUT =>
      Serial_println "gnss wait timeout error." ;;
      modify (set_gnss_recevie_timeout true)
  | ELTRES_BOARD_EVT_IDLE =>
      Serial_println "waiting sending timings." ;;
      digitalWrite LED_SND LOW
  | ELTRES_BOARD_EVT_SEND_READY =>
      Serial_println "Shortly before sending, so setup payload if need." ;;
      modify (set_event_send_ready true)
  | ELTRES_BOARD_EVT_SENDING =>
      Serial_println "start sending." ;;
      digitalWrite LED_SND HIGH
  | ELTRES_BOARD_EVT_GNSS_UNRECEIVE =>
      Serial_println "gnss wave has not been received." ;;
      digitalWrite LED_GNSS LOW
  | ELTRES_BOARD_EVT_GNSS_RECEIVE =>
      Serial_println "gnss wave has been received." ;;
      digitalWrite LED_GNSS HIGH ;;
      modify (set_gnss_recevie_timeout false)
  | ELTRES_BOARD_EVT_FAULT =>
      Serial_println "internal error."
  end.

Definition gga_event_cb (gga_info : eltres_board_gga_info) : act :=
  Serial_print "[gga]" ;;
  modify (set_last_gga_info gga_info) ;;
  if negb (m_pos_status gga_info =? 0) then
    Serial_print "utc: " ;;
    Serial_println (m_utc gga_info) ;;
    Serial_print "lat: " ;;
    Serial_print (m_n_s gga_info) ;;
    Serial_print (m_lat gga_info) ;;
    Serial_print ", lon: " ;;
    Serial_print (m_e_w gga_info) ;;
    Serial_println (m_lon gga_info) ;;
    Serial_print "pos_status: " ;;
    Serial_print_int (m_pos_status gga_info) ;;
    Serial_print ", sat_used: " ;;
    Serial_println_int (m_sat_used gga_info) ;;
    Serial_print "hdop: " ;;
    Serial_print_float (m_hdop gga_info) ;;
    Serial_print ", height: " ;;
    Serial_print_float (m_height gga_info) ;;
    Serial_print " m, geoid: " ;;
    Serial_print_float (m_geoid gga_info) ;;
    Serial_println " m"
  else
    Serial_println "invalid data.".

(** ** Start-up: [setup] *)

(** What the library calls of [setup] return. *)
Record setup_env : Type := {
  ret_elt : Z;               (* EltresAddonBoard.begin *)
  nnbfile_found : bool;      (* SD.open("network.nnb") is not NULL *)
  dnnrt_begin_ret : Z;       (* dnnrt.begin *)
  camera_begin_err : Z;      (* theCamera.begin *)
  camera_format_err : Z      (* theCamera.setStillPictureImageFormat *)
}.

(** [Serial.begin], [randomSeed], [nnbfile.close] and the wait for the
    serial monitor leave the globals alone and show nothing outside. *)
Definition setup (env : setup_env) : act :=
  pinMode_output LED_RUN ;;
  digitalWrite LED_RUN HIGH ;;
  pinMode_output LED_GNSS ;;
  digitalWrite LED_GNSS LOW ;;
  pinMode_output LED_SND ;;
  digitalWrite LED_SND LOW ;;
  pinMode_output LED_ERR ;;
  digitalWrite LED_ERR LOW ;;
  if negb (ret_elt env =? ELTRES_BOARD_RESULT_OK) then
    digitalWrite LED_RUN LOW ;;
    digitalWrite LED_ERR HIGH ;;
    modify (set_program_sts PROGRAM_STS_STOPPED) ;;
    Serial_print "cannot start eltres board (" ;;
    Serial_print_int (ret_elt env) ;;
    Serial_println ")."
  else if negb (nnbfile_found env) then
    Serial_print "nnb is not found" ;;
    exit
  else if dnnrt_begin_ret env <? 0 then
    Serial_print "DNNRT initialization failure.: " ;;
    Serial_println_int (dnnrt_begin_ret env) ;;
    exit
  else if negb (camera_begin_err env =? CAM_ERR_SUCCESS) then
    Serial_print "CAMERA initialization failure.: " ;;
    Serial_println_int (camera_begin_err env) ;;
    exit
  else
    (if negb (camera_format_err env =? CAM_ERR_SUCCESS) then
       Serial_print "CAMERA set parameters failure.: " ;;
       Serial_println_int (camera_format_err env) ;;
       exit
     else
       modify (set_program_sts PROGRAM_STS_RUNNING)) ;;
    modify (set_program_sts PROGRAM_STS_RUNNING) ;;
    Serial_println "続行".

(** ** Frame preprocessing *)

(** [for (int i = 0; i < n; i++) body] *)
Definition for_loop {A : Type} (n : nat) (body : nat -> A -> A) (a : A) : A :=
  fold_left (fun acc i => body i acc) (List.seq 0 n) a.

(** [camera_buf[i]], a [uint8_t]. *)
Definition read_u8 (buf : list Z) (i : nat) : Z :=
  match buf !! i with
  | Some p => u8 p
  | None => 0
  end.

(** [camera_buf[i] / 255.0] stored into a [float]: the pixel is converted
    to [double], divided in [double], and the quotient narrowed. *)
Definition normalize (p : Z) : spec_float :=
  Flt.float_of_double (Flt.ddiv (Flt.double_of_Z p) (Flt.double_of_Z 255)).

(** The two nested loops that fill [input_data] from [camera_buf]. *)
Definition fill_input_gen (width height : nat) (camera_buf : list Z)
    (input_data : list spec_float) : list spec_float :=
  for_loop height (fun h acc =>
    for_loop width (fun w acc =>
      <[(h * width + w)%nat := normalize (read_u8 camera_buf (h * width + w))]> acc)
      acc)
    input_data.

Definition fill_input : list Z -> list spec_float -> list spec_float :=
  fill_input_gen (Z.to_nat INPUT_WIDTH) (Z.to_nat INPUT_HEIGHT).

(** The crop rectangle; [/] on [int] truncates. *)
Definition lefttop_x : Z := (PICTURE_WIDTH - PICTURE_CLIP_WIDTH) ÷ 2.
Definition lefttop_y : Z := (PICTURE_HEIGTH - PICTURE_CLIP_HEIGHT) ÷ 2.
Definition rightbottom_x : Z := lefttop_x + PICTURE_CLIP_WIDTH - 1.
Definition rightbottom_y : Z := lefttop_y + PICTURE_CLIP_HEIGHT - 1.

(** ** Main cycle: [loop] *)

(** What the library calls of one pass of [loop] return. *)
Record tick_env : Type := {
  random_0_2 : Z;                            (* random(0, 2) *)
  picture_available : bool;                  (* camImage.isAvailable() *)
  clip_err : Z;                              (* clipAndResizeImageByHW *)
  convert_err : Z;                           (* convertPixFormat *)
  camera_buf : list Z;                       (* coverted.getImgBuff() *)
  dnn_forward : list spec_float -> spec_float; (* forward, then output[0] *)
  millis : Z;                                (* millis() *)
  gnss_clock : Z                             (* get_gnss_time *)
}.

(** The blink step taken while the GNSS timeout flag is set. *)
Definition blink (env : tick_env) : act := fun s =>
  let now_time := u64 (millis env) in
  if 1000 <=? u64 (now_time - last_change_blink_time s) then
    (modify (set_last_change_blink_time now_time) ;;
     (fun s =>
        let set_value := digitalRead LED_ERR s in
        let next_value := if Bool.eqb set_value LOW then HIGH else LOW in
        digitalWrite LED_ERR next_value s)) s
  else skip s.

(** [case PROGRAM_STS_RUNNING], first half: the error indicator. *)
Definition error_indicator_update (env : tick_env) : act :=
  ifS gnss_recevie_timeout
    (blink env ;;
     (fun s => Serial_println_int (Z.b2z (gnss_recevie_timeout s)) s))
    (digitalWrite LED_ERR LOW).

(** [case PROGRAM_STS_RUNNING], second half: the payload for the next
    transmission; [EltresAddonBoard.set_payload] is the hand-off. *)
Definition payload_handoff (env : tick_env) : act :=
  ifS event_send_ready
    (modify (set_event_send_ready false) ;;
     (fun s => setup_payload_detection (gnss_clock env) (s16 (flag s)) s) ;;
     (fun s => emit (SetPayload (payload s)) s))
    skip.

(** The [switch (program_sts)] at the end of [loop]. *)
Definition state_switch (env : tick_env) : act := fun s =>
  if program_sts s =? PROGRAM_STS_RUNNING then
    (error_indicator_update env ;; payload_handoff env) s
  else if program_sts s =? PROGRAM_STS_STOPPED then skip s
  else skip s.

Definition loop (env : tick_env) : act :=
  Serial_println "Loop in." ;;
  modify (set_flag (random_0_2 env)) ;;
  Serial_print "Flag is " ;;
  (fun s => Serial_println_int (flag s) s) ;;
  emit (Sleep 1) ;;
  if negb (picture_available env) then
    Serial_println "CAMERA take picture failure."
  else
    Serial_println "CAMERA take picture success." ;;
    emit (ClipAndResize lefttop_x lefttop_y rightbottom_x rightbottom_y
            INPUT_WIDTH INPUT_HEIGHT) ;;
    if negb (clip_err env =? CAM_ERR_SUCCESS) then
      Serial_print "CAMERA resize failure. : " ;;
      Serial_println_int (clip_err env)
    else if negb (convert_err env =? CAM_ERR_SUCCESS) then
      Serial_print "CAMERA convert format failure. : " ;;
      Serial_println_int (convert_err env)
    else
      modify (fun s => set_input_data (fill_input (camera_buf env) (input_data s)) s) ;;
      (fun s =>
         let value := dnn_forward env (input_data s) in
         ((if Flt.truthy value then
             Serial_print "Object detection!!" ;;
             Serial_print " ( value: " ;;
             Serial_print_float value
           else skip) ;;
          state_switch env) s).

(** ** The running program *)

Inductive action : Type :=
| Tick (env : tick_env)
| RadioEvent (event : eltres_board_event)
| FixUpdate (gga_info : eltres_board_gga_info).

Definition perform (a : action) : act :=
  match a with
  | Tick env => loop env
  | RadioEvent event => eltres_event_cb event
  | FixUpdate gga_info => gga_event_cb gga_info
  end.

Fixpoint run (actions : list action) : act :=
  match actions with
  | [] => skip
  | a :: rest => perform a ;; run rest
  end.

(** [setup], then ticks and callbacks in the order they happen. *)
Definition program (env : setup_env) (actions : list action) : result :=
  (setup env ;; run actions) initial_state.

(** ** Observations on runs *)

(** Effects that drive an indicator or hand a payload to the radio. *)
Definition is_indicator_write (e : effect) : bool :=
  match e with DigitalWrite _ _ => true | _ => false end.

Definition is_handoff (e : effect) : bool :=
  match e with SetPayload _ => true | _ => false end.

Definition handoffs (es : list effect) : list effect := List.filter is_handoff es.

Definition indicator_writes (es : list effect) : list effect :=
  List.filter is_indicator_write es.

(** A tick reaches the [switch] when the capture, the crop and resize and
    the grayscale conversion all succeed. *)
Definition reaches_switch (env : tick_env) : bool :=
  picture_available env
  && (clip_err env =? CAM_ERR_SUCCESS)
  && (convert_err env =? CAM_ERR_SUCCESS).

(** The globals just before the [switch]. *)
Definition before_switch (env : tick_env) (s : State) : State :=
  set_input_data (fill_input (camera_buf env) (input_data (set_flag (random_0_2 env) s)))
    (set_flag (random_0_2 env) s).

Definition tick_prefix (env : tick_env) : list effect :=
  [ SerialPrintln "Loop in."; SerialPrint "Flag is ";
    SerialPrintInt (random_0_2 env); SerialPrintln EmptyString; Sleep 1;
    SerialPrintln "CAMERA take picture success.";
    ClipAndResize lefttop_x lefttop_y rightbottom_x rightbottom_y
      INPUT_WIDTH INPUT_HEIGHT ].

Definition detection_report (value : spec_float) : list effect :=
  if Flt.truthy value then
    [ SerialPrint "Object detection!!"; SerialPrint " ( value: ";
      SerialPrintFloat value ]
  else [].

(** The inference output of a tick that reaches the [switch]. *)
Definition tick_value (env : tick_env) (s : State) : spec_float :=
  dnn_forward env (input_data (before_switch env s)).

(** Times (the [millis] reading of the tick) at which a tick changed the
    level of the error indicator. *)
Fixpoint toggle_times (actions : list action) (s : State) : list Z :=
  match actions with
  | [] => []
  | a :: rest =>
      let s' := res_state (perform a s) in
      match a with
      | Tick env =>
          if Bool.eqb (led s' LED_ERR) (led s LED_ERR)
          then toggle_times rest s'
          else u64 (millis env) :: toggle_times rest s'
      | _ => toggle_times rest s'
      end
  end.

(** The GNSS timeout flag is set before and after every action. *)
Fixpoint timeout_held (actions : list action) (s : State) : bool :=
  gnss_recevie_timeout s &&
  match actions with
  | [] => true
  | a :: rest => timeout_held rest (res_state (perform a s))
  end.

(** [millis] never goes back and stays in [uint64_t]. *)
Fixpoint clock_monotone (t0 : Z) (actions : list action) : Prop :=
  match actions with
  | [] => True
  | Tick env :: rest =>
      t0 <= millis env < 2 ^ 64 /\ clock_monotone (millis env) rest
  | _ :: rest => clock_monotone t0 rest
  end.

(** Neighbours in [l] are at least [d] apart. *)
Fixpoint spaced (d : Z) (l : list Z) : Prop :=
  match l with
  | a :: (b :: _) as t => a + d <= b /\ spaced d t
  | _ => True
  end.

(** Every window of length [d] inside [t_start, t_end] holds one of the
    [times]. *)
Definition every_window_hit (d t_start t_end : Z) (times : list Z) : Prop :=
  forall a, t_start <= a -> a + d <= t_end ->
            exists t, In t times /\ a <= t <= a + d.

(** A code path of the sketch: [setup], or one of the actions. *)
Inductive code_path : Type :=
| PathSetup (env : setup_env)
| PathAction (a : action).

Definition follow (p : code_path) : act :=
  match p with
  | PathSetup env => setup env
  | PathAction a => perform a
  end.

(** The component a code path belongs to; [setup_payload_detection] runs
    inside [loop]. *)
Inductive component : Set :=
| StartUp | RadioEventHandler | MainCycleOrchestrator.

Definition component_of (p : code_path) : component :=
  match p with
  | PathSetup _ => StartUp
  | PathAction (Tick _) => MainCycleOrchestrator
  | PathAction (RadioEvent _) | PathAction (FixUpdate _) => RadioEventHandler
  end.

(** The discipline of a coordination flag: only the radio event handler
    sets it, only the main cycle clears it. *)
Definition flag_discipline (coordination_flag : State -> bool) : Prop :=
  forall p s,
    let s' := res_state (follow p s) in
    (coordination_flag s = false -> coordination_flag s' = true ->
     component_of p = RadioEventHandler) /\
    (coordination_flag s = true -> coordination_flag s' = false ->
     component_of p = MainCycleOrchestrator).

(** What the serial monitor shows while the payload is built. *)
Definition payload_report (flag : Z) : list effect :=
  [ SerialPrintln "[setup_payload_detection]"; SerialPrint "detection flag:";
    SerialPrintInt flag; SerialPrintln EmptyString ].

(** The same tick with another inference model behind [forward]. *)
Definition with_dnn_forward (f : list spec_float -> spec_float) (env : tick_env)
  : tick_env :=
  {| random_0_2 := random_0_2 env;
     picture_available := picture_available env;
     clip_err := clip_err env;
     convert_err := convert_err env;
     camera_buf := camera_buf env;
     dnn_forward := f;
     millis := millis env;
     gnss_clock := gnss_clock env |}.

(** ** Frames and samples *)

(** A grayscale frame of the model input size with 8-bit pixels. *)
Definition valid_frame (camera_buf : list Z) : bool :=
  (length camera_buf =? Z.to_nat (INPUT_WIDTH * INPUT_HEIGHT))%nat
  && forallb (fun p => (0 <=? p) && (p <=? 255)) camera_buf.

(** [0.0 <= v <= 1.0] as [float] comparisons. *)
Definition in_unit_interval (v : spec_float) : bool :=
  SFleb (S754_zero false) v && SFleb v (Flt.float_of_Z 1).

Definition is_one (v : spec_float) : bool := SFeqb v (Flt.float_of_Z 1).
Definition is_zero (v : spec_float) : bool := SFeqb v (S754_zero false).

(** The facts about one sample, as a check on the pixel. *)
Definition pixel_check (p : Z) : bool :=
  in_unit_interval (normalize p)
  && Bool.eqb (is_one (normalize p)) (p =? 255)
  && Bool.eqb (is_zero (normalize p)) (p =? 0).

(** One row of stores [acc[start + w] = sample (start + w)], and all rows:
    the shape of the nested loops of [fill_input_gen]. *)
Definition store_row (sample : nat -> spec_float) (start width : nat)
    (acc : list spec_float) : list spec_float :=
  for_loop width (fun w acc => <[(start + w)%nat := sample (start + w)%nat]> acc) acc.

Definition store_rows (sample : nat -> spec_float) (width height : nat)
    (acc : list spec_float) : list spec_float :=
  for_loop height (fun h acc => store_row sample (h * width) width acc) acc.

(** ** Start-up failures *)

Inductive startup_failure : Set :=
| RadioStartFailure
| ModelFileMissing
| RuntimeInitFailure
| CaptureInitFailure
| CaptureFormatFailure.

(** The first start-up step that fails, in the order [setup] takes them. *)
Definition startup_outcome (env : setup_env) : option startup_failure :=
  if negb (ret_elt env =? ELTRES_BOARD_RESULT_OK) then Some RadioStartFailure
  else if negb (nnbfile_found env) then Some ModelFileMissing
  else if dnnrt_begin_ret env <? 0 then Some RuntimeInitFailure
  else if negb (camera_begin_err env =? CAM_ERR_SUCCESS) then Some CaptureInitFailure
  else if negb (camera_format_err env =? CAM_ERR_SUCCESS) then Some CaptureFormatFailure
  else None.

Definition is_serial (e : effect) : bool :=
  match e with
  | SerialPrint _ | SerialPrintln _ | SerialPrintInt _ | SerialPrintFloat _ => true
  | _ => false
  end.

(** What reaches the serial monitor. *)
Definition serial_output (es : list effect) : list effect := List.filter is_serial es.

(** The one report [setup] prints for a failure. *)
Definition failure_report (env : setup_env) (f : startup_failure) : list effect :=
  match f with
  | RadioStartFailure =>
      [ SerialPrint "cannot start eltres board ("; SerialPrintInt (ret_elt env);
        SerialPrintln ")." ]
  | ModelFileMissing =>
      [ SerialPrint "nnb is not found" ]
  | RuntimeInitFailure =>
      [ SerialPrint "DNNRT initialization failure.: ";
        SerialPrintInt (dnnrt_begin_ret env); SerialPrintln EmptyString ]
  | CaptureInitFailure =>
      [ SerialPrint "CAMERA initialization failure.: ";
        SerialPrintInt (camera_begin_err env); SerialPrintln EmptyString ]
  | CaptureFormatFailure =>
      [ SerialPrint "CAMERA set parameters failure.: ";
        SerialPrintInt (camera_format_err env); SerialPrintln EmptyString ]
  end.

(** ** Sample runs *)

Module Sample.

(** Every start-up call succeeds. *)
Definition setup_ok : setup_env :=
  {| ret_elt := 0; nnbfile_found := true; dnnrt_begin_ret := 0;
     camera_begin_err := 0; camera_format_err := 0 |}.

(** The globals after a successful [setup]. *)
Definition started : State := res_state (program setup_ok []).

(** A 56 x 56 grayscale frame of one intensity. *)
Definition flat_frame (p : Z) : list Z :=
  repeat p (Z.to_nat (INPUT_WIDTH * INPUT_HEIGHT)).

Definition f_zero : spec_float := S754_zero false.
Definition f_one : spec_float := Flt.float_of_Z 1.

(** A tick whose capture and conversions succeed: the random draw is
    [rnd], the model answers [value], [millis] reads [now]. *)
Definition good_tick (rnd : Z) (value : spec_float) (now : Z) : tick_env :=
  {| random_0_2 := rnd; picture_available := true;
     clip_err := CAM_ERR_SUCCESS; convert_err := CAM_ERR_SUCCESS;
     camera_buf := flat_frame 128;
     dnn_forward := fun _ => value;
     millis := now; gnss_clock := 1000018 |}.

(** A tick whose capture fails. *)
Definition failed_capture (rnd : Z) (now : Z) : tick_env :=
  {| random_0_2 := rnd; picture_available := false;
     clip_err := CAM_ERR_SUCCESS; convert_err := CAM_ERR_SUCCESS;
     camera_buf := [];
     dnn_forward := fun _ => f_zero;
     millis := now; gnss_clock := 1000018 |}.

End Sample.

(** ** Observations on longer runs *)

Definition event_eqb (e1 e2 : eltres_board_event) : bool :=
  match e1, e2 with
  | ELTRES_BOARD_EVT_GNSS_TMOUT, ELTRES_BOARD_EVT_GNSS_TMOUT
  | ELTRES_BOARD_EVT_IDLE, ELTRES_BOARD_EVT_IDLE
  | ELTRES_BOARD_EVT_SEND_READY, ELTRES_BOARD_EVT_SEND_READY
  | ELTRES_BOARD_EVT_SENDING, ELTRES_BOARD_EVT_SENDING
  | ELTRES_BOARD_EVT_GNSS_UNRECEIVE, ELTRES_BOARD_EVT_GNSS_UNRECEIVE
  | ELTRES_BOARD_EVT_GNSS_RECEIVE, ELTRES_BOARD_EVT_GNSS_RECEIVE
  | ELTRES_BOARD_EVT_FAULT, ELTRES_BOARD_EVT_FAULT => true
  | _, _ => false
  end.

(** A level raised by the event [on] and lowered by the event [off]: its
    value after one action, and after a list of actions. *)
Definition level_step (on off : eltres_board_event) (level : bool) (a : action)
  : bool :=
  match a with
  | RadioEvent e =>
      if event_eqb e on then true
      else if event_eqb e off then false
      else level
  | _ => level
  end.

Definition level_after (on off : eltres_board_event) (actions : list action)
    (level : bool) : bool :=
  fold_left (level_step on off) actions level.

(** The fix record of the last fix update among the actions. *)
Definition last_fix (actions : list action) (current : eltres_board_gga_info)
  : eltres_board_gga_info :=
  fold_left (fun g a => match a with FixUpdate g' => g' | _ => g end)
    actions current.

(** Number of window-approaching events among the actions. *)
Definition is_send_ready (a : action) : bool :=
  match a with
  | RadioEvent ELTRES_BOARD_EVT_SEND_READY => true
  | _ => false
  end.

Definition count_send_ready (actions : list action) : nat :=
  length (List.filter is_send_ready actions).

(** ** Reading a payload back *)

(** The receiving side of the layout written by [setup_payload_detection]:
    the flag byte, the time field and the quality byte of a payload. *)
Definition decode_flag (bytes : list Z) : option Z := bytes !! 1%nat.

Definition decode_time (bytes : list Z) : option Z :=
  match bytes !! 10%nat, bytes !! 11%nat, bytes !! 12%nat, bytes !! 13%nat with
  | Some b0, Some b1, Some b2, Some b3 => Some (be32 b0 b1 b2 b3)
  | _, _, _, _ => None
  end.

Definition decode_quality (bytes : list Z) : option Z := bytes !! 15%nat.

(** A payload as the radio expects it: 16 bytes, tag 0x8A, the unused
    bytes 2 to 9 and byte 14 zero. *)
Definition well_formed_payload (bytes : list Z) : Prop :=
  length bytes = 16%nat /\
  Forall (fun b => 0 <= b < 256) bytes /\
  bytes !! 0%nat = Some 0x8A /\
  (forall i, (2 <= i <= 9)%nat -> bytes !! i = Some 0) /\
  bytes !! 14%nat = Some 0.

(** ** Order of samples *)

(** The 256 pixel intensities, in order. *)
Definition pixel_values : list Z := List.map Z.of_nat (List.seq 0 256).

(** Every element is below (as [float]) every later one. *)
Fixpoint strictly_increasing (l : list spec_float) : bool :=
  match l with
  | [] => true
  | v :: rest => forallb (SFltb v) rest && strictly_increasing rest
  end.

(** The payload of the last hand-off among the effects, [current] when
    there is none. *)
Definition last_handoff (es : list effect) (current : list Z) : list Z :=
  fold_left (fun acc e => match e with SetPayload b => b | _ => acc end)
    es current.

(** The serial line that announces a detection. *)
Definition is_detection_line (e : effect) : bool :=
  match e with
  | SerialPrint t => String.eqb t "Object detection!!"
  | _ => false
  end.

Definition detection_lines (es : list effect) : list effect :=
  List.filter is_detection_line es.

(** * Properties *)

(** ** Machine-integer facts *)

Lemma land_255_mod (z : Z) : Z.land z 0xff = z mod 256.
Proof. change 0xff with (Z.ones 8). now rewrite Z.land_ones by lia. Qed.

Lemma u8_mod (z : Z) : u8 (z mod 256) = z mod 256.
Proof. unfold u8, wrap_unsigned. change (2 ^ 8) with 256. apply Z.mod_mod. lia. Qed.

Lemma u8_small (z : Z) : 0 <= z < 256 -> u8 z = z.
Proof. intros H. unfold u8, wrap_unsigned. apply Z.mod_small. simpl. lia. Qed.

Lemma u8_land (z : Z) : u8 (Z.land z 0xff) = z mod 256.
Proof. rewrite land_255_mod. apply u8_mod. Qed.

Lemma u8_shift_land (z : Z) (k : Z) :
  0 <= k -> u8 (Z.land (Z.shiftr z k) 0xff) = (z / 2 ^ k) mod 256.
Proof. intros Hk. rewrite u8_land, Z.shiftr_div_pow2 by lia. reflexivity. Qed.

Lemma utc_time_wrap (radio_clock : Z) :
  u32 (u32 radio_clock - 18) = (radio_clock - 18) mod 2 ^ 32.
Proof. unfold u32, wrap_unsigned. apply Zminus_mod_idemp_l. Qed.

Lemma be32_bytes (u : Z) :
  0 <= u < 2 ^ 32 ->
  be32 ((u / 2 ^ 24) mod 256) ((u / 2 ^ 16) mod 256) ((u / 2 ^ 8) mod 256)
       (u mod 256) = u.
Proof.
  intros Hu. unfold be32.
  change (2 ^ 24) with 16777216. change (2 ^ 16) with 65536.
  change (2 ^ 8) with 256. change (2 ^ 32) with 4294967296 in Hu.
  Z.div_mod_to_equations. lia.
Qed.

(** ** Payload encoder *)

(** The stores of [setup_payload_detection], collected. *)
Lemma setup_payload_detection_payload (radio_clock flag : Z) (s : State) :
  let utc_time := u32 (u32 radio_clock - 18) in
  payload (res_state (setup_payload_detection radio_clock flag s)) =
  [ u8 0x8A; u8 (Z.land flag 0xff); 0; 0; 0; 0; 0; 0; 0; 0;
    u8 (Z.land (Z.shiftr utc_time 24) 0xff);
    u8 (Z.land (Z.shiftr utc_time 16) 0xff);
    u8 (Z.land (Z.shiftr utc_time 8) 0xff);
    u8 (Z.land utc_time 0xff);
    u8 0x00;
    u8 (m_pos_status (last_gga_info s)) ].
Proof. reflexivity. Qed.

Lemma setup_payload_detection_status (radio_clock flag : Z) (s : State) :
  res_status (setup_payload_detection radio_clock flag s) = Going.
Proof. reflexivity. Qed.

Lemma setup_payload_detection_bytes (radio_clock flag : Z) (s : State) :
  let u := (radio_clock - 18) mod 2 ^ 32 in
  payload (res_state (setup_payload_detection radio_clock flag s)) =
  [ 0x8A; flag mod 256; 0; 0; 0; 0; 0; 0; 0; 0;
    (u / 2 ^ 24) mod 256; (u / 2 ^ 16) mod 256; (u / 2 ^ 8) mod 256; u mod 256;
    0; m_pos_status (last_gga_info s) mod 256 ].
Proof.
  intros u. rewrite setup_payload_detection_payload. cbv zeta.
  rewrite !u8_shift_land, !u8_land by lia.
  rewrite utc_time_wrap. fold u.
  reflexivity.
Qed.

(** Claim C1.  The payload encoder never fails and its output is a function
    of the flag, the fix information and the radio clock alone: whatever the
    other globals hold, [setup_payload_detection] finishes and leaves in
    [payload] the 16 bytes [encode flag fixinfo radio_clock].  Byte 0 is the
    tag 0x8A, byte 1 the low eight bits of the flag, bytes 2 to 9 are zero,
    bytes 10 to 13 are the big-endian bytes of the radio clock minus 18 as
    a 32-bit unsigned value, byte 14 is zero and byte 15 is the fix quality.
    With flag 0, quality 0 and clock 18 every byte but the tag is zero; a
    flag of -1 gives 0xFF in byte 1; a clock of 1000018 gives bytes 10 to 13
    that read back as 1000000. *)
Theorem encode_layout (flag : Z) (fixinfo : eltres_board_gga_info)
    (radio_clock : Z) (s : State) :
  0 <= m_pos_status fixinfo < 256 ->
  last_gga_info s = fixinfo ->
  let r := setup_payload_detection radio_clock flag s in
  let u := (radio_clock - 18) mod 2 ^ 32 in
  let b10 := (u / 2 ^ 24) mod 256 in
  let b11 := (u / 2 ^ 16) mod 256 in
  let b12 := (u / 2 ^ 8) mod 256 in
  let b13 := u mod 256 in
  res_status r = Going /\
  payload (res_state r) = encode flag fixinfo radio_clock /\
  encode flag fixinfo radio_clock =
    [ 0x8A; flag mod 256; 0; 0; 0; 0; 0; 0; 0; 0; b10; b11; b12; b13;
      0; m_pos_status fixinfo ] /\
  length (encode flag fixinfo radio_clock) = 16%nat /\
  (forall i, 0 <= i < 8 -> Z.testbit (flag mod 256) i = Z.testbit flag i) /\
  be32 b10 b11 b12 b13 = u /\
  encode 0 gga_zero 18 = [0x8A; 0; 0; 0; 0; 0; 0; 0; 0; 0; 0; 0; 0; 0; 0; 0] /\
  encode (-1) fixinfo radio_clock !! 1%nat = Some 0xFF /\
  encode flag fixinfo 1000018 =
    [ 0x8A; flag mod 256; 0; 0; 0; 0; 0; 0; 0; 0; 0x00; 0x0F; 0x42; 0x40;
      0; m_pos_status fixinfo ] /\
  be32 0x00 0x0F 0x42 0x40 = 1000000.
Proof.
  intros Hq Hfix r u b10 b11 b12 b13.
  assert (Henc : forall f c,
             encode f fixinfo c =
             [ 0x8A; f mod 256; 0; 0; 0; 0; 0; 0; 0; 0;
               (((c - 18) mod 2 ^ 32) / 2 ^ 24) mod 256;
               (((c - 18) mod 2 ^ 32) / 2 ^ 16) mod 256;
               (((c - 18) mod 2 ^ 32) / 2 ^ 8) mod 256;
               ((c - 18) mod 2 ^ 32) mod 256;
               0; m_pos_status fixinfo ]).
  { intros f c. unfold encode. rewrite setup_payload_detection_bytes.
    cbv zeta. change (last_gga_info (set_last_gga_info fixinfo initial_state))
      with fixinfo.
    now rewrite (Z.mod_small (m_pos_status fixinfo)) by lia. }
  split; [reflexivity|].
  split.
  { subst r. rewrite Henc, setup_payload_detection_bytes, Hfix. cbv zeta.
    now rewrite (Z.mod_small (m_pos_status fixinfo)) by lia. }
  split; [apply Henc|].
  split; [now rewrite Henc|].
  split.
  { intros i Hi. change 256 with (2 ^ 8). apply Z.mod_pow2_bits_low. lia. }
  split.
  { apply be32_bytes. subst u. apply Z.mod_pos_bound. lia. }
  split; [reflexivity|].
  split; [now rewrite Henc|].
  split; [apply Henc | reflexivity].
Qed.

Lemma encode_layout_witness :
  payload (res_state (setup_payload_detection 1000018 (-1) initial_state)) =
  [0x8A; 0xFF; 0; 0; 0; 0; 0; 0; 0; 0; 0x00; 0x0F; 0x42; 0x40; 0; 0].
Proof.
  pose proof (encode_layout (-1) gga_zero 1000018 initial_state) as H.
  cbv zeta in H.
  destruct H as (_ & Hp & He & _); [simpl; lia | reflexivity |].
  rewrite Hp, He. reflexivity.
Defined.

(** Claim C10.  The leap-second correction is done in unsigned 32-bit
    arithmetic: when the radio clock is below 18 the difference wraps, and
    bytes 10 to 13 of the payload read back as the clock plus 2^32 - 18,
    which is [(radio_clock - 18) mod 2^32], at least 2^32 - 18; the encoder
    still finishes and the value is not clamped to zero. *)
Theorem utc_correction_wraps (flag radio_clock : Z) (s : State) :
  0 <= radio_clock < 18 ->
  let r := setup_payload_detection radio_clock flag s in
  exists b10 b11 b12 b13,
    payload (res_state r) !! 10%nat = Some b10 /\
    payload (res_state r) !! 11%nat = Some b11 /\
    payload (res_state r) !! 12%nat = Some b12 /\
    payload (res_state r) !! 13%nat = Some b13 /\
    be32 b10 b11 b12 b13 = (radio_clock - 18) mod 2 ^ 32 /\
    be32 b10 b11 b12 b13 = radio_clock + 2 ^ 32 - 18 /\
    2 ^ 32 - 18 <= be32 b10 b11 b12 b13 < 2 ^ 32 /\
    res_status r = Going.
Proof.
  intros Hc r. subst r.
  rewrite setup_payload_detection_bytes. cbv zeta.
  set (u := (radio_clock - 18) mod 2 ^ 32).
  assert (Hu : u = radio_clock + 2 ^ 32 - 18).
  { subst u. symmetry. apply (Z.mod_unique_pos _ _ (-1)); lia. }
  exists ((u / 2 ^ 24) mod 256), ((u / 2 ^ 16) mod 256),
         ((u / 2 ^ 8) mod 256), (u mod 256).
  repeat (split; [reflexivity|]).
  rewrite be32_bytes by lia.
  repeat split; try lia.
Qed.

Lemma utc_correction_wraps_witness :
  exists b10 b11 b12 b13,
    payload (res_state (setup_payload_detection 0 1 initial_state)) !! 10%nat = Some b10 /\
    payload (res_state (setup_payload_detection 0 1 initial_state)) !! 11%nat = Some b11 /\
    payload (res_state (setup_payload_detection 0 1 initial_state)) !! 12%nat = Some b12 /\
    payload (res_state (setup_payload_detection 0 1 initial_state)) !! 13%nat = Some b13 /\
    be32 b10 b11 b12 b13 = 4294967278.
Proof.
  destruct (utc_correction_wraps 1 0 initial_state) as
    (b10 & b11 & b12 & b13 & H10 & H11 & H12 & H13 & _ & Hv & _); [lia|].
  exists b10, b11, b12, b13. repeat (split; [assumption|]). exact Hv.
Defined.

(** ** Shape of one pass of [loop] *)

Lemma loop_reaching (env : tick_env) (s : State) :
  reaches_switch env = true ->
  loop env s =
  Result (res_status (state_switch env (before_switch env s)))
         (res_state (state_switch env (before_switch env s)))
         (tick_prefix env ++ detection_report (tick_value env s) ++
          res_effects (state_switch env (before_switch env s))).
Proof.
  unfold reaches_switch. intros H.
  apply andb_prop in H as [H Hconv]. apply andb_prop in H as [Hav Hclip].
  unfold loop, tick_value, detection_report.
  rewrite Hav, Hclip, Hconv. cbn [negb].
  cbv [and_then Serial_println Serial_print Serial_println_int
       Serial_print_float emit modify skip].
  fold (before_switch env s).
  destruct (Flt.truthy _); destruct (state_switch env (before_switch env s));
    reflexivity.
Qed.

Lemma loop_abandoned (env : tick_env) (s : State) :
  reaches_switch env = false ->
  res_status (loop env s) = Going /\
  res_state (loop env s) = set_flag (random_0_2 env) s /\
  handoffs (res_effects (loop env s)) = [] /\
  indicator_writes (res_effects (loop env s)) = [].
Proof.
  unfold reaches_switch, loop. intros H.
  destruct (picture_available env); cbn [negb andb] in *.
  - destruct (clip_err env =? CAM_ERR_SUCCESS); cbn [negb andb] in *.
    + rewrite H. cbn. auto.
    + cbn. auto.
  - cbn. auto.
Qed.

Lemma handoffs_app (es fs : list effect) :
  handoffs (es ++ fs) = handoffs es ++ handoffs fs.
Proof. apply List.filter_app. Qed.

Lemma indicator_writes_app (es fs : list effect) :
  indicator_writes (es ++ fs) = indicator_writes es ++ indicator_writes fs.
Proof. apply List.filter_app. Qed.

Lemma detection_report_quiet (v : spec_float) :
  handoffs (detection_report v) = [] /\ indicator_writes (detection_report v) = [].
Proof. unfold detection_report. destruct (Flt.truthy v); split; reflexivity. Qed.

(** ** Crop rectangle *)

(** Claim C7.  The crop rectangle is centred: its left-top corner is
    ((capture width - crop width) / 2, (capture height - crop height) / 2),
    where the crop size is the model input size times the resize ratio.  For
    the 320 x 240 capture and the 56 x 56 input with ratio 4 the corner is
    (48, 8), the opposite corner (271, 231), so no offset is negative and
    the whole rectangle lies inside the capture, with equal margins on
    opposite sides. *)
Theorem crop_rectangle_centred :
  lefttop_x = (PICTURE_WIDTH - PICTURE_CLIP_WIDTH) ÷ 2 /\
  lefttop_y = (PICTURE_HEIGTH - PICTURE_CLIP_HEIGHT) ÷ 2 /\
  PICTURE_WIDTH = 320 /\ PICTURE_HEIGTH = 240 /\
  PICTURE_CLIP_WIDTH = INPUT_WIDTH * INPUT_RESIZE_RATIO /\
  PICTURE_CLIP_HEIGHT = INPUT_HEIGHT * INPUT_RESIZE_RATIO /\
  lefttop_x = 48 /\ lefttop_y = 8 /\
  rightbottom_x = 271 /\ rightbottom_y = 231 /\
  0 <= lefttop_x /\ 0 <= lefttop_y /\
  lefttop_x <= rightbottom_x < PICTURE_WIDTH /\
  lefttop_y <= rightbottom_y < PICTURE_HEIGTH /\
  rightbottom_x - lefttop_x + 1 = PICTURE_CLIP_WIDTH /\
  rightbottom_y - lefttop_y + 1 = PICTURE_CLIP_HEIGHT /\
  lefttop_x = PICTURE_WIDTH - 1 - rightbottom_x /\
  lefttop_y = PICTURE_HEIGTH - 1 - rightbottom_y.
Proof.
  repeat split; first [reflexivity | vm_compute; congruence].
Qed.

(** ** The two halves of the running case *)

Lemma blink_toggle_value (v : bool) : (if Bool.eqb v LOW then HIGH else LOW) = negb v.
Proof. destruct v; reflexivity. Qed.

Lemma error_indicator_due (env : tick_env) (s : State) :
  gnss_recevie_timeout s = true ->
  (1000 <=? u64 (u64 (millis env) - last_change_blink_time s)) = true ->
  error_indicator_update env s =
  Result Going
    (set_led LED_ERR (negb (led s LED_ERR))
       (set_last_change_blink_time (u64 (millis env)) s))
    [ DigitalWrite LED_ERR (negb (led s LED_ERR));
      SerialPrintInt 1; SerialPrintln EmptyString ].
Proof.
  intros Hg Hd.
  unfold error_indicator_update, ifS, and_then, blink. rewrite Hg, Hd.
  cbv [and_then modify digitalWrite emit Serial_println_int digitalRead].
  cbn [res_state res_effects res_status led set_last_change_blink_time
       gnss_recevie_timeout set_led app].
  rewrite blink_toggle_value, Hg. reflexivity.
Qed.

Lemma error_indicator_wait (env : tick_env) (s : State) :
  gnss_recevie_timeout s = true ->
  (1000 <=? u64 (u64 (millis env) - last_change_blink_time s)) = false ->
  error_indicator_update env s =
  Result Going s [ SerialPrintInt 1; SerialPrintln EmptyString ].
Proof.
  intros Hg Hd.
  unfold error_indicator_update, ifS, and_then, blink. rewrite Hg, Hd.
  cbv [skip Serial_println_int and_then emit]. rewrite Hg. reflexivity.
Qed.

Lemma error_indicator_clear (env : tick_env) (s : State) :
  gnss_recevie_timeout s = false ->
  error_indicator_update env s =
  Result Going (set_led LED_ERR LOW s) [ DigitalWrite LED_ERR LOW ].
Proof.
  intros Hg. unfold error_indicator_update, ifS. rewrite Hg. reflexivity.
Qed.

Lemma payload_handoff_ready (env : tick_env) (s : State) :
  event_send_ready s = true ->
  payload_handoff env s =
  Result Going
    (set_payload_buf (encode (s16 (flag s)) (last_gga_info s) (gnss_clock env))
       (set_event_send_ready false s))
    (payload_report (s16 (flag s)) ++
     [ SetPayload (encode (s16 (flag s)) (last_gga_info s) (gnss_clock env)) ]).
Proof.
  intros Hr. unfold payload_handoff, ifS. rewrite Hr. reflexivity.
Qed.

Lemma payload_handoff_idle (env : tick_env) (s : State) :
  event_send_ready s = false ->
  payload_handoff env s = Result Going s [].
Proof.
  intros Hr. unfold payload_handoff, ifS. rewrite Hr. reflexivity.
Qed.

Lemma state_switch_running (env : tick_env) (s : State) :
  program_sts s = PROGRAM_STS_RUNNING ->
  state_switch env s = (error_indicator_update env ;; payload_handoff env) s.
Proof. intros H. unfold state_switch. rewrite H. reflexivity. Qed.

Lemma state_switch_not_running (env : tick_env) (s : State) :
  program_sts s <> PROGRAM_STS_RUNNING ->
  state_switch env s = Result Going s [].
Proof.
  intros H. unfold state_switch.
  destruct (Z.eqb_spec (program_sts s) PROGRAM_STS_RUNNING); [contradiction|].
  destruct (program_sts s =? PROGRAM_STS_STOPPED); reflexivity.
Qed.

(** The state and status the first half hands to the second. *)
Lemma error_indicator_frame (env : tick_env) (s : State) :
  let r := error_indicator_update env s in
  res_status r = Going /\
  program_sts (res_state r) = program_sts s /\
  gnss_recevie_timeout (res_state r) = gnss_recevie_timeout s /\
  event_send_ready (res_state r) = event_send_ready s /\
  payload (res_state r) = payload s /\
  last_gga_info (res_state r) = last_gga_info s /\
  flag (res_state r) = flag s /\
  input_data (res_state r) = input_data s /\
  handoffs (res_effects r) = [].
Proof.
  destruct (gnss_recevie_timeout s) eqn:Hg.
  - destruct (1000 <=? u64 (u64 (millis env) - last_change_blink_time s)) eqn:Hd.
    + rewrite (error_indicator_due env s Hg Hd). cbn. now rewrite Hg.
    + rewrite (error_indicator_wait env s Hg Hd). cbn. now rewrite Hg.
  - rewrite (error_indicator_clear env s Hg). cbn. now rewrite Hg.
Qed.

(** ** What one pass of [loop] does to the globals and the radio *)

Lemma state_switch_handoffs (env : tick_env) (s : State) :
  program_sts s = PROGRAM_STS_RUNNING ->
  let r := state_switch env s in
  res_status r = Going /\
  program_sts (res_state r) = program_sts s /\
  gnss_recevie_timeout (res_state r) = gnss_recevie_timeout s /\
  event_send_ready (res_state r) = false /\
  handoffs (res_effects r) =
    if event_send_ready s
    then [ SetPayload (encode (s16 (flag s)) (last_gga_info s) (gnss_clock env)) ]
    else [].
Proof.
  intros Hrun. cbv zeta. rewrite (state_switch_running _ _ Hrun).
  pose proof (error_indicator_frame env s) as F. cbv zeta in F.
  unfold and_then.
  destruct (error_indicator_update env s) as [st s1 e1].
  cbn [res_status res_state res_effects] in F.
  destruct F as (-> & Hp & Hg & Hr & _ & Hi & Hf & _ & He).
  destruct (event_send_ready s) eqn:Hs.
  - rewrite (payload_handoff_ready env s1 Hr).
    cbn [res_status res_state res_effects].
    rewrite !handoffs_app, He, Hi, Hf. cbn. auto.
  - rewrite (payload_handoff_idle env s1 Hr).
    cbn [res_status res_state res_effects].
    rewrite handoffs_app, He. cbn. auto.
Qed.

Lemma tick_prefix_quiet (env : tick_env) :
  handoffs (tick_prefix env) = [] /\ indicator_writes (tick_prefix env) = [].
Proof. split; reflexivity. Qed.

Lemma loop_handoffs (env : tick_env) (s : State) :
  program_sts s = PROGRAM_STS_RUNNING ->
  reaches_switch env = true ->
  let r := loop env s in
  res_status r = Going /\
  program_sts (res_state r) = program_sts s /\
  gnss_recevie_timeout (res_state r) = gnss_recevie_timeout s /\
  event_send_ready (res_state r) = false /\
  handoffs (res_effects r) =
    if event_send_ready s
    then [ SetPayload (encode (s16 (random_0_2 env)) (last_gga_info s)
                         (gnss_clock env)) ]
    else [].
Proof.
  intros Hrun Hreach. cbv zeta. rewrite (loop_reaching _ _ Hreach).
  cbn [res_status res_state res_effects].
  pose proof (state_switch_handoffs env (before_switch env s) Hrun) as H.
  cbv zeta in H. destruct H as (Hst & Hp & Hg & Hr & Hh).
  rewrite !handoffs_app, Hh.
  rewrite (proj1 (tick_prefix_quiet env)), (proj1 (detection_report_quiet _)).
  repeat split; assumption.
Qed.

(** No action ever leaves through [exit], and none writes [program_sts]. *)
Lemma eltres_event_cb_frame (event : eltres_board_event) (s : State) :
  let r := eltres_event_cb event s in
  res_status r = Going /\
  program_sts (res_state r) = program_sts s /\
  led (res_state r) LED_ERR = led s LED_ERR /\
  last_change_blink_time (res_state r) = last_change_blink_time s /\
  handoffs (res_effects r) = [].
Proof. destruct event; cbn; auto. Qed.

Lemma gga_event_cb_frame (gga_info : eltres_board_gga_info) (s : State) :
  let r := gga_event_cb gga_info s in
  res_status r = Going /\
  res_state r = set_last_gga_info gga_info s /\
  handoffs (res_effects r) = [] /\
  indicator_writes (res_effects r) = [].
Proof.
  unfold gga_event_cb. destruct (negb (m_pos_status gga_info =? 0)); cbn; auto.
Qed.

Lemma loop_frame (env : tick_env) (s : State) :
  res_status (loop env s) = Going /\
  program_sts (res_state (loop env s)) = program_sts s.
Proof.
  destruct (reaches_switch env) eqn:Hreach.
  - rewrite (loop_reaching _ _ Hreach). cbn [res_status res_state].
    destruct (Z.eq_dec (program_sts (before_switch env s)) PROGRAM_STS_RUNNING)
      as [Hrun|Hrun].
    + pose proof (state_switch_handoffs env _ Hrun) as H. cbv zeta in H.
      destruct H as (H1 & H2 & _). split; [exact H1|]. rewrite H2. reflexivity.
    + rewrite (state_switch_not_running _ _ Hrun). split; reflexivity.
  - destruct (loop_abandoned env s Hreach) as (H1 & H2 & _).
    split; [exact H1|]. rewrite H2. reflexivity.
Qed.

Lemma perform_frame (a : action) (s : State) :
  res_status (perform a s) = Going /\
  program_sts (res_state (perform a s)) = program_sts s.
Proof.
  destruct a as [env|event|gga_info]; cbn [perform].
  - apply loop_frame.
  - pose proof (eltres_event_cb_frame event s) as H. cbv zeta in H. tauto.
  - pose proof (gga_event_cb_frame gga_info s) as H. cbv zeta in H.
    destruct H as (H1 & H2 & _). rewrite H2. auto.
Qed.

Lemma run_cons (a : action) (rest : list action) (s : State) :
  run (a :: rest) s =
  Result (res_status (run rest (res_state (perform a s))))
         (res_state (run rest (res_state (perform a s))))
         (res_effects (perform a s) ++
          res_effects (run rest (res_state (perform a s)))).
Proof.
  cbn [run]. unfold and_then.
  pose proof (proj1 (perform_frame a s)) as Hst.
  destruct (perform a s) as [st s1 e1]. cbn in Hst. subst st.
  cbn [res_state res_effects].
  destruct (run rest s1); reflexivity.
Qed.

Lemma run_frame (actions : list action) (s : State) :
  res_status (run actions s) = Going /\
  program_sts (res_state (run actions s)) = program_sts s.
Proof.
  revert s. induction actions as [|a rest IH]; intros s.
  - split; reflexivity.
  - rewrite run_cons. cbn [res_status res_state].
    destruct (IH (res_state (perform a s))) as [H1 H2].
    split; [exact H1|]. rewrite H2. apply perform_frame.
Qed.

(** ** Terminal state *)

Lemma stopped_tick_quiet (env : tick_env) (s : State) :
  program_sts s = PROGRAM_STS_STOPPED ->
  indicator_writes (res_effects (loop env s)) = [] /\
  handoffs (res_effects (loop env s)) = [] /\
  (forall p, led (res_state (loop env s)) p = led s p) /\
  payload (res_state (loop env s)) = payload s.
Proof.
  intros Hs. destruct (reaches_switch env) eqn:Hreach.
  - rewrite (loop_reaching _ _ Hreach). cbn [res_state res_effects].
    rewrite state_switch_not_running.
    2:{ cbn. rewrite Hs. discriminate. }
    cbn [res_state res_effects].
    rewrite !indicator_writes_app, !handoffs_app.
    rewrite (proj1 (tick_prefix_quiet env)), (proj2 (tick_prefix_quiet env)).
    rewrite (proj1 (detection_report_quiet _)), (proj2 (detection_report_quiet _)).
    repeat split.
  - destruct (loop_abandoned env s Hreach) as (_ & H2 & H3 & H4).
    rewrite H2, H3, H4. repeat split.
Qed.

(** Claim C8.  Once [program_sts] is [PROGRAM_STS_STOPPED] it stays so
    through any later ticks and callbacks, and every later tick leaves all
    four indicators and the payload buffer as they are, makes no indicator
    write and no payload hand-off. *)
Theorem stopped_is_terminal (actions : list action) (env : tick_env) (s : State) :
  program_sts s = PROGRAM_STS_STOPPED ->
  let s' := res_state (run actions s) in
  let r := loop env s' in
  program_sts s' = PROGRAM_STS_STOPPED /\
  program_sts (res_state r) = PROGRAM_STS_STOPPED /\
  indicator_writes (res_effects r) = [] /\
  handoffs (res_effects r) = [] /\
  (forall p, led (res_state r) p = led s' p) /\
  payload (res_state r) = payload s'.
Proof.
  intros Hs s' r.
  assert (Hs' : program_sts s' = PROGRAM_STS_STOPPED).
  { subst s'. rewrite (proj2 (run_frame actions s)). exact Hs. }
  split; [exact Hs'|].
  split. { subst r. rewrite (proj2 (loop_frame env s')). exact Hs'. }
  apply stopped_tick_quiet. exact Hs'.
Qed.

Lemma stopped_is_terminal_witness :
  let s := set_program_sts PROGRAM_STS_STOPPED
             (set_event_send_ready true
                (set_gnss_recevie_timeout true initial_state)) in
  let env := {| random_0_2 := 1; picture_available := true; clip_err := 0;
                convert_err := 0; camera_buf := [];
                dnn_forward := fun _ => S754_zero false;
                millis := 5000; gnss_clock := 1000018 |} in
  indicator_writes (res_effects (loop env (res_state (run [Tick env] s)))) = [] /\
  handoffs (res_effects (loop env (res_state (run [Tick env] s)))) = [].
Proof.
  intros s env.
  destruct (stopped_is_terminal [Tick env] env s) as (_ & _ & H1 & H2 & _);
    [reflexivity|].
  split; [exact H1 | exact H2].
Defined.

(** ** Payload hand-off *)

(** Claim C2, as the code has it.  On a tick in the running state with the
    window-approaching flag set, a payload is handed to the radio only when
    the capture, the crop and resize and the conversion succeed, and then it
    is the encoding of the tick's random draw [random(0, 2)] (converted to
    [int16_t]), the current fix information and the radio clock.  The
    inference output takes no part in it: replacing the model changes
    nothing in what is handed over.  Its truth value (nonzero) only decides
    whether the detection is reported on the serial monitor. *)
Theorem handoff_payload_contents (env : tick_env) (s : State) :
  program_sts s = PROGRAM_STS_RUNNING ->
  event_send_ready s = true ->
  (reaches_switch env = true ->
   handoffs (res_effects (loop env s)) =
   [ SetPayload (encode (s16 (random_0_2 env)) (last_gga_info s) (gnss_clock env)) ]) /\
  (reaches_switch env = false -> handoffs (res_effects (loop env s)) = []) /\
  (forall f, handoffs (res_effects (loop (with_dnn_forward f env) s)) =
             handoffs (res_effects (loop env s))) /\
  (reaches_switch env = true ->
   exists rest,
     res_effects (loop env s) =
     tick_prefix env ++ detection_report (tick_value env s) ++ rest).
Proof.
  intros Hrun Hready.
  assert (H1 : forall e, reaches_switch e = true ->
             handoffs (res_effects (loop e s)) =
             [ SetPayload (encode (s16 (random_0_2 e)) (last_gga_info s) (gnss_clock e)) ]).
  { intros e He. pose proof (loop_handoffs e s Hrun He) as H. cbv zeta in H.
    destruct H as (_ & _ & _ & _ & H). now rewrite Hready in H. }
  assert (H2 : forall e, reaches_switch e = false ->
             handoffs (res_effects (loop e s)) = []).
  { intros e He. now destruct (loop_abandoned e s He) as (_ & _ & H & _). }
  split; [apply H1|]. split; [apply H2|].
  split.
  - intros f.
    assert (Hsame : reaches_switch (with_dnn_forward f env) = reaches_switch env)
      by reflexivity.
    destruct (reaches_switch env) eqn:He.
    + rewrite (H1 _ Hsame), (H1 _ He). reflexivity.
    + rewrite (H2 _ Hsame), (H2 _ He). reflexivity.
  - intros He. rewrite (loop_reaching _ _ He). cbn [res_effects]. eauto.
Qed.

Lemma handoff_payload_contents_witness :
  handoffs (res_effects (loop (Sample.good_tick 1 Sample.f_zero 1000)
                           (set_event_send_ready true Sample.started))) =
  [ SetPayload [0x8A; 1; 0; 0; 0; 0; 0; 0; 0; 0; 0x00; 0x0F; 0x42; 0x40; 0; 0] ].
Proof.
  destruct (handoff_payload_contents (Sample.good_tick 1 Sample.f_zero 1000)
              (set_event_send_ready true Sample.started)) as (H & _);
    [reflexivity | reflexivity |].
  rewrite H by reflexivity. reflexivity.
Defined.

(** Claim C2 as stated fails: with the window-approaching flag set in the
    running state, a tick whose inference output is nonzero (detected) and a
    tick whose output is zero hand over the same payload, with flag byte 0
    when the random draw is 0; and a tick with output zero hands over flag
    byte 1 when the random draw is 1. *)
Lemma handoff_ignores_detection :
  let s := res_state (program Sample.setup_ok
                        [RadioEvent ELTRES_BOARD_EVT_SEND_READY]) in
  let detected := Sample.good_tick 0 Sample.f_one 1000 in
  let nothing := Sample.good_tick 0 Sample.f_zero 1000 in
  let nothing' := Sample.good_tick 1 Sample.f_zero 1000 in
  program_sts s = PROGRAM_STS_RUNNING /\
  event_send_ready s = true /\
  Flt.truthy (tick_value detected s) = true /\
  Flt.truthy (tick_value nothing s) = false /\
  Flt.truthy (tick_value nothing' s) = false /\
  handoffs (res_effects (loop detected s)) =
    [ SetPayload [0x8A; 0; 0; 0; 0; 0; 0; 0; 0; 0; 0x00; 0x0F; 0x42; 0x40; 0; 0] ] /\
  handoffs (res_effects (loop nothing s)) =
    [ SetPayload [0x8A; 0; 0; 0; 0; 0; 0; 0; 0; 0; 0x00; 0x0F; 0x42; 0x40; 0; 0] ] /\
  handoffs (res_effects (loop nothing' s)) =
    [ SetPayload [0x8A; 1; 0; 0; 0; 0; 0; 0; 0; 0; 0x00; 0x0F; 0x42; 0x40; 0; 0] ].
Proof. vm_compute. repeat split. Qed.

(** Claim C5, as the code has it.  After the window-approaching event has
    set the flag in the running state, a tick whose capture, crop and resize
    and conversion succeed clears the flag and makes exactly one payload
    hand-off; the next tick, with no event in between and whatever its
    capture does, makes none. *)
Theorem window_flag_round_trip (env1 env2 : tick_env) (s : State) :
  program_sts s = PROGRAM_STS_RUNNING ->
  reaches_switch env1 = true ->
  let s1 := res_state (eltres_event_cb ELTRES_BOARD_EVT_SEND_READY s) in
  let r1 := loop env1 s1 in
  let r2 := loop env2 (res_state r1) in
  event_send_ready s1 = true /\
  event_send_ready (res_state r1) = false /\
  length (handoffs (res_effects r1)) = 1%nat /\
  length (handoffs (res_effects r2)) = 0%nat /\
  event_send_ready (res_state r2) = false.
Proof.
  intros Hrun Hreach s1 r1 r2.
  assert (Hrun1 : program_sts s1 = PROGRAM_STS_RUNNING) by exact Hrun.
  assert (Hready : event_send_ready s1 = true) by reflexivity.
  pose proof (loop_handoffs env1 s1 Hrun1 Hreach) as H. cbv zeta in H.
  fold r1 in H. destruct H as (_ & Hp1 & _ & Hclr & Hh). rewrite Hready in Hh.
  split; [exact Hready|]. split; [exact Hclr|].
  split; [now rewrite Hh|].
  assert (Hrun2 : program_sts (res_state r1) = PROGRAM_STS_RUNNING)
    by (rewrite Hp1; exact Hrun1).
  subst r2. destruct (reaches_switch env2) eqn:Hreach2.
  - pose proof (loop_handoffs env2 (res_state r1) Hrun2 Hreach2) as H.
    cbv zeta in H. destruct H as (_ & _ & _ & Hclr2 & Hh2).
    rewrite Hclr in Hh2. rewrite Hh2. split; [reflexivity | exact Hclr2].
  - destruct (loop_abandoned env2 (res_state r1) Hreach2) as (_ & H2 & H3 & _).
    rewrite H2, H3. split; [reflexivity | exact Hclr].
Qed.

Lemma window_flag_round_trip_witness :
  let s1 := res_state (eltres_event_cb ELTRES_BOARD_EVT_SEND_READY Sample.started) in
  let r1 := loop (Sample.good_tick 1 Sample.f_one 1000) s1 in
  let r2 := loop (Sample.good_tick 0 Sample.f_one 2100) (res_state r1) in
  length (handoffs (res_effects r1)) = 1%nat /\
  length (handoffs (res_effects r2)) = 0%nat.
Proof.
  intros s1 r1 r2.
  destruct (window_flag_round_trip (Sample.good_tick 1 Sample.f_one 1000)
              (Sample.good_tick 0 Sample.f_one 2100) Sample.started)
    as (_ & _ & H1 & H2 & _); [reflexivity | reflexivity |].
  split; [exact H1 | exact H2].
Defined.

(** Claim C5 as stated fails when the capture of the first tick fails: the
    tick returns before the [switch], the flag stays set and nothing is
    handed over; the hand-off then happens on the second tick although no
    new event arrived. *)
Lemma failed_capture_keeps_window_flag :
  let s1 := res_state (eltres_event_cb ELTRES_BOARD_EVT_SEND_READY Sample.started) in
  let r1 := loop (Sample.failed_capture 1 1000) s1 in
  let r2 := loop (Sample.good_tick 0 Sample.f_one 2100) (res_state r1) in
  program_sts s1 = PROGRAM_STS_RUNNING /\
  event_send_ready s1 = true /\
  event_send_ready (res_state r1) = true /\
  length (handoffs (res_effects r1)) = 0%nat /\
  length (handoffs (res_effects r2)) = 1%nat.
Proof. vm_compute. repeat split. Qed.

(** ** Start-up *)

Lemma setup_radio_failure (env : setup_env) (s : State) :
  startup_outcome env = Some RadioStartFailure ->
  setup env s =
  Result Going
    (set_program_sts PROGRAM_STS_STOPPED
       (set_led LED_ERR HIGH (set_led LED_RUN LOW
          (set_led LED_ERR LOW (set_led LED_SND LOW
             (set_led LED_GNSS LOW (set_led LED_RUN HIGH s)))))))
    ([ PinModeOutput LED_RUN; DigitalWrite LED_RUN HIGH;
       PinModeOutput LED_GNSS; DigitalWrite LED_GNSS LOW;
       PinModeOutput LED_SND; DigitalWrite LED_SND LOW;
       PinModeOutput LED_ERR; DigitalWrite LED_ERR LOW;
       DigitalWrite LED_RUN LOW; DigitalWrite LED_ERR HIGH ] ++
     failure_report env RadioStartFailure).
Proof.
  unfold startup_outcome, setup. intros H.
  destruct (negb (ret_elt env =? ELTRES_BOARD_RESULT_OK)); [reflexivity|].
  repeat match type of H with
         | (if ?c then _ else _) = _ => destruct c; try discriminate
         end.
Qed.

Lemma setup_exit_failure (env : setup_env) (f : startup_failure) (s : State) :
  startup_outcome env = Some f ->
  f <> RadioStartFailure ->
  setup env s =
  Result Exited
    (set_led LED_ERR LOW (set_led LED_SND LOW
       (set_led LED_GNSS LOW (set_led LED_RUN HIGH s))))
    ([ PinModeOutput LED_RUN; DigitalWrite LED_RUN HIGH;
       PinModeOutput LED_GNSS; DigitalWrite LED_GNSS LOW;
       PinModeOutput LED_SND; DigitalWrite LED_SND LOW;
       PinModeOutput LED_ERR; DigitalWrite LED_ERR LOW ] ++
     failure_report env f).
Proof.
  unfold startup_outcome, setup. intros H Hf.
  destruct (negb (ret_elt env =? ELTRES_BOARD_RESULT_OK)).
  { injection H as <-. contradiction. }
  destruct (negb (nnbfile_found env)). { injection H as <-. reflexivity. }
  destruct (dnnrt_begin_ret env <? 0). { injection H as <-. reflexivity. }
  destruct (negb (camera_begin_err env =? CAM_ERR_SUCCESS)).
  { injection H as <-. reflexivity. }
  destruct (negb (camera_format_err env =? CAM_ERR_SUCCESS)).
  { injection H as <-. reflexivity. }
  discriminate.
Qed.

Lemma setup_success (env : setup_env) (s : State) :
  startup_outcome env = None ->
  res_status (setup env s) = Going /\
  program_sts (res_state (setup env s)) = PROGRAM_STS_RUNNING.
Proof.
  unfold startup_outcome, setup. intros H.
  repeat match type of H with
         | (if ?c then _ else _) = _ => destruct c; try discriminate
         end.
  split; reflexivity.
Qed.

(** Claim C3, as the code has it.  Each of the five start-up failures is
    reported once: the report is all that [setup] sends to the serial
    monitor.  A radio start-up failure turns the running indicator off and
    the error indicator on, sets [program_sts] to [PROGRAM_STS_STOPPED] and
    returns; from then on [program_sts] stays [PROGRAM_STS_STOPPED] and
    every tick writes no indicator and hands over no payload.  A missing
    model file, an inference-runtime failure, a capture-device failure and
    a capture-format failure end the program with [exit]: the error
    indicator is off, the running indicator is on, [program_sts] still has
    its initial value, and no tick runs. *)
Theorem startup_failure_handling (env : setup_env) (f : startup_failure) :
  startup_outcome env = Some f ->
  let r := setup env initial_state in
  serial_output (res_effects r) = failure_report env f /\
  match f with
  | RadioStartFailure =>
      res_status r = Going /\
      program_sts (res_state r) = PROGRAM_STS_STOPPED /\
      led (res_state r) LED_ERR = HIGH /\
      led (res_state r) LED_RUN = LOW /\
      (forall actions tick,
          let s' := res_state (run actions (res_state r)) in
          program_sts s' = PROGRAM_STS_STOPPED /\
          indicator_writes (res_effects (loop tick s')) = [] /\
          handoffs (res_effects (loop tick s')) = [])
  | _ =>
      res_status r = Exited /\
      program_sts (res_state r) = PROGRAM_STS_INIT /\
      led (res_state r) LED_ERR = LOW /\
      led (res_state r) LED_RUN = HIGH /\
      (forall ticks : list tick_env, program env (List.map Tick ticks) = r)
  end.
Proof.
  intros Hf r.
  assert (Hcases : f = RadioStartFailure \/ f <> RadioStartFailure)
    by (destruct f; auto; right; discriminate).
  destruct Hcases as [->|Hne].
  - subst r. rewrite (setup_radio_failure env initial_state Hf).
    cbn [res_status res_state res_effects].
    do 5 (split; [reflexivity|]).
    intros actions tick.
    match goal with
    | |- context [loop tick ?st] => set (s' := st)
    end.
    assert (Hs' : program_sts s' = PROGRAM_STS_STOPPED).
    { subst s'. rewrite (proj2 (run_frame _ _)). reflexivity. }
    destruct (stopped_tick_quiet tick s' Hs') as (H1 & H2 & _).
    auto.
  - assert (Hr : forall ticks : list tick_env,
               program env (List.map Tick ticks) = r).
    { intros ticks. unfold program, and_then. fold r. subst r.
      rewrite (setup_exit_failure env f initial_state Hf Hne). reflexivity. }
    subst r. rewrite (setup_exit_failure env f initial_state Hf Hne) in *.
    cbn [res_status res_state res_effects].
    split; [destruct f; reflexivity|].
    destruct f; try contradiction; do 4 (split; [reflexivity|]); exact Hr.
Qed.

Lemma startup_failure_handling_witness :
  let env := {| ret_elt := 0; nnbfile_found := true; dnnrt_begin_ret := -1;
                camera_begin_err := 0; camera_format_err := 0 |} in
  serial_output (res_effects (setup env initial_state)) =
    [ SerialPrint "DNNRT initialization failure.: "; SerialPrintInt (-1);
      SerialPrintln EmptyString ] /\
  res_status (setup env initial_state) = Exited.
Proof.
  intros env.
  destruct (startup_failure_handling env RuntimeInitFailure) as (H1 & H2 & _);
    [reflexivity|].
  split; [exact H1 | exact H2].
Defined.

(** Claim C3 as stated fails for four of the five failures.  When the model
    file is missing [setup] reports it and calls [exit]: the error indicator
    is still off and [program_sts] is still [PROGRAM_STS_INIT], not
    [PROGRAM_STS_STOPPED]; the same holds for the inference-runtime, the
    capture-device and the capture-format failure.  And after a radio
    start-up failure periodic work does go on: [setup] returns, and the
    next tick prints, draws [flag], sleeps and tries a capture. *)
Lemma exit_failures_leave_error_indicator_off :
  let missing := {| ret_elt := 0; nnbfile_found := false; dnnrt_begin_ret := 0;
                    camera_begin_err := 0; camera_format_err := 0 |} in
  let runtime := {| ret_elt := 0; nnbfile_found := true; dnnrt_begin_ret := -1;
                    camera_begin_err := 0; camera_format_err := 0 |} in
  let capture := {| ret_elt := 0; nnbfile_found := true; dnnrt_begin_ret := 0;
                    camera_begin_err := -1; camera_format_err := 0 |} in
  let format := {| ret_elt := 0; nnbfile_found := true; dnnrt_begin_ret := 0;
                   camera_begin_err := 0; camera_format_err := -1 |} in
  let radio := {| ret_elt := -1; nnbfile_found := true; dnnrt_begin_ret := 0;
                  camera_begin_err := 0; camera_format_err := 0 |} in
  Forall (fun '(env, f) =>
            startup_outcome env = Some f /\
            led (res_state (setup env initial_state)) LED_ERR = LOW /\
            program_sts (res_state (setup env initial_state)) = PROGRAM_STS_INIT /\
            program_sts (res_state (setup env initial_state)) <> PROGRAM_STS_STOPPED /\
            res_status (setup env initial_state) = Exited)
    [ (missing, ModelFileMissing); (runtime, RuntimeInitFailure);
      (capture, CaptureInitFailure); (format, CaptureFormatFailure) ] /\
  startup_outcome radio = Some RadioStartFailure /\
  res_status (setup radio initial_state) = Going /\
  program_sts (res_state (setup radio initial_state)) = PROGRAM_STS_STOPPED /\
  res_effects (loop (Sample.failed_capture 1 1000)
                 (res_state (setup radio initial_state))) =
    [ SerialPrintln "Loop in."; SerialPrint "Flag is "; SerialPrintInt 1;
      SerialPrintln EmptyString; Sleep 1;
      SerialPrintln "CAMERA take picture failure." ] /\
  flag (res_state (setup radio initial_state)) = 0 /\
  flag (res_state (loop (Sample.failed_capture 1 1000)
                     (res_state (setup radio initial_state)))) = 1.
Proof.
  cbv zeta. split.
  - repeat constructor; try reflexivity; vm_compute; discriminate.
  - repeat split.
Qed.

(** ** Coordination flags *)

Lemma setup_flags (env : setup_env) (s : State) :
  gnss_recevie_timeout (res_state (setup env s)) = gnss_recevie_timeout s /\
  event_send_ready (res_state (setup env s)) = event_send_ready s.
Proof.
  unfold setup.
  destruct (negb (ret_elt env =? ELTRES_BOARD_RESULT_OK)); [split; reflexivity|].
  destruct (negb (nnbfile_found env)); [split; reflexivity|].
  destruct (dnnrt_begin_ret env <? 0); [split; reflexivity|].
  destruct (negb (camera_begin_err env =? CAM_ERR_SUCCESS)); [split; reflexivity|].
  destruct (negb (camera_format_err env =? CAM_ERR_SUCCESS)); split; reflexivity.
Qed.

Lemma loop_flags (env : tick_env) (s : State) :
  gnss_recevie_timeout (res_state (loop env s)) = gnss_recevie_timeout s /\
  event_send_ready (res_state (loop env s)) =
    if reaches_switch env && (program_sts s =? PROGRAM_STS_RUNNING)
    then false else event_send_ready s.
Proof.
  destruct (reaches_switch env) eqn:Hreach; cbn [andb].
  - destruct (Z.eqb_spec (program_sts s) PROGRAM_STS_RUNNING) as [Hrun|Hrun].
    + pose proof (loop_handoffs env s Hrun Hreach) as H. cbv zeta in H.
      destruct H as (_ & _ & Hg & Hr & _). auto.
    + rewrite (loop_reaching _ _ Hreach). cbn [res_state].
      rewrite (state_switch_not_running env (before_switch env s)) by exact Hrun.
      split; reflexivity.
  - destruct (loop_abandoned env s Hreach) as (_ & H & _). rewrite H.
    split; reflexivity.
Qed.

(** Claim C4, as the code has it.  The window-approaching flag goes from
    false to true only in the radio event handler, on the window-approaching
    event, and from true to false only in the main cycle, on a tick in the
    running state that reaches the [switch].  The GNSS timeout flag goes
    from false to true only in the radio event handler, on the timeout
    event, and from true to false only in the radio event handler as well,
    on the fix-acquired event; the main cycle, the fix update callback and
    [setup] never change it. *)
Theorem coordination_flag_writers (p : code_path) (s : State) :
  let s' := res_state (follow p s) in
  (event_send_ready s = false -> event_send_ready s' = true ->
   p = PathAction (RadioEvent ELTRES_BOARD_EVT_SEND_READY)) /\
  (event_send_ready s = true -> event_send_ready s' = false ->
   exists env, p = PathAction (Tick env) /\ reaches_switch env = true /\
               program_sts s = PROGRAM_STS_RUNNING) /\
  (gnss_recevie_timeout s = false -> gnss_recevie_timeout s' = true ->
   p = PathAction (RadioEvent ELTRES_BOARD_EVT_GNSS_TMOUT)) /\
  (gnss_recevie_timeout s = true -> gnss_recevie_timeout s' = false ->
   p = PathAction (RadioEvent ELTRES_BOARD_EVT_GNSS_RECEIVE)).
Proof.
  destruct p as [env | [env | event | gga_info]]; cbn [follow perform]; cbv zeta.
  - destruct (setup_flags env s) as [-> ->].
    repeat split; intros; congruence.
  - destruct (loop_flags env s) as [-> Hr]. rewrite Hr.
    split; [|split; [|split]]; try (intros; congruence).
    + destruct (reaches_switch env && (program_sts s =? PROGRAM_STS_RUNNING));
        intros; congruence.
    + intros H1 H2. exists env.
      destruct (reaches_switch env) eqn:Hreach; cbn [andb] in H2.
      * destruct (Z.eqb_spec (program_sts s) PROGRAM_STS_RUNNING); auto.
        congruence.
      * congruence.
  - destruct event; cbn; repeat split; intros; congruence.
  - pose proof (gga_event_cb_frame gga_info s) as H. cbv zeta in H.
    destruct H as (_ & -> & _). cbn.
    repeat split; intros; congruence.
Qed.

Lemma coordination_flag_writers_witness :
  PathAction (RadioEvent ELTRES_BOARD_EVT_GNSS_RECEIVE) =
  PathAction (RadioEvent ELTRES_BOARD_EVT_GNSS_RECEIVE) /\
  exists env, PathAction (Tick (Sample.good_tick 1 Sample.f_one 1000)) =
              PathAction (Tick env) /\
              reaches_switch env = true /\
              program_sts (set_event_send_ready true Sample.started) =
              PROGRAM_STS_RUNNING.
Proof.
  split.
  - exact (proj2 (proj2 (proj2
      (coordination_flag_writers
         (PathAction (RadioEvent ELTRES_BOARD_EVT_GNSS_RECEIVE))
         (set_gnss_recevie_timeout true Sample.started))))
      eq_refl eq_refl).
  - exact (proj1 (proj2
      (coordination_flag_writers
         (PathAction (Tick (Sample.good_tick 1 Sample.f_one 1000)))
         (set_event_send_ready true Sample.started)))
      eq_refl eq_refl).
Defined.

(** Claim C4 as stated fails for the GNSS timeout flag: with the flag set,
    the fix-acquired event clears it inside the radio event handler, so a
    transition to false is not the main cycle's. *)
Lemma timeout_flag_cleared_by_handler :
  let s := set_gnss_recevie_timeout true Sample.started in
  let p := PathAction (RadioEvent ELTRES_BOARD_EVT_GNSS_RECEIVE) in
  gnss_recevie_timeout s = true /\
  gnss_recevie_timeout (res_state (follow p s)) = false /\
  component_of p = RadioEventHandler /\
  ~ flag_discipline gnss_recevie_timeout.
Proof.
  cbv zeta. do 3 (split; [reflexivity|]).
  intros D.
  destruct (D (PathAction (RadioEvent ELTRES_BOARD_EVT_GNSS_RECEIVE))
              (set_gnss_recevie_timeout true Sample.started)) as [_ H].
  specialize (H eq_refl eq_refl). discriminate H.
Qed.

(** ** Blinking of the error indicator *)

Lemma u64_small (z : Z) : 0 <= z < 2 ^ 64 -> u64 z = z.
Proof. intros H. unfold u64, wrap_unsigned. now apply Z.mod_small. Qed.

(** The error indicator and the blink time stamp after a tick taken in
    the running state with the GNSS timeout flag set. *)
Lemma loop_blink (env : tick_env) (s : State) :
  program_sts s = PROGRAM_STS_RUNNING ->
  gnss_recevie_timeout s = true ->
  let s' := res_state (loop env s) in
  let due := reaches_switch env &&
             (1000 <=? u64 (u64 (millis env) - last_change_blink_time s)) in
  led s' LED_ERR = (if due then negb (led s LED_ERR) else led s LED_ERR) /\
  last_change_blink_time s' =
    (if due then u64 (millis env) else last_change_blink_time s).
Proof.
  intros Hrun Hg. cbv zeta.
  destruct (reaches_switch env) eqn:Hreach; cbn [andb].
  - rewrite (loop_reaching _ _ Hreach). cbn [res_state].
    rewrite (state_switch_running env (before_switch env s)) by exact Hrun.
    unfold and_then.
    change (last_change_blink_time s)
      with (last_change_blink_time (before_switch env s)).
    change (led s LED_ERR) with (led (before_switch env s) LED_ERR).
    assert (Hg' : gnss_recevie_timeout (before_switch env s) = true) by exact Hg.
    generalize dependent (before_switch env s). intros b Hgb.
    destruct (1000 <=? u64 (u64 (millis env) - last_change_blink_time b)) eqn:Hd.
    + rewrite (error_indicator_due env b Hgb Hd).
      match goal with
      | |- context [payload_handoff env ?st] =>
          destruct (event_send_ready st) eqn:Hr;
          [ rewrite (payload_handoff_ready env st Hr)
          | rewrite (payload_handoff_idle env st Hr) ]
      end; split; reflexivity.
    + rewrite (error_indicator_wait env b Hgb Hd).
      destruct (event_send_ready b) eqn:Hr;
        [ rewrite (payload_handoff_ready env b Hr)
        | rewrite (payload_handoff_idle env b Hr) ]; split; reflexivity.
  - destruct (loop_abandoned env s Hreach) as (_ & H & _). rewrite H.
    split; reflexivity.
Qed.

Lemma spaced_cons (d a : Z) (l : list Z) :
  Forall (fun t => a + d <= t) l -> spaced d l -> spaced d (a :: l).
Proof.
  intros Hall Hsp. destruct l as [|b l]; [exact I|].
  split; [now inversion Hall | exact Hsp].
Qed.

Lemma toggle_times_spaced (actions : list action) :
  forall (s : State) (t0 : Z),
    program_sts s = PROGRAM_STS_RUNNING ->
    timeout_held actions s = true ->
    0 <= last_change_blink_time s <= t0 ->
    clock_monotone t0 actions ->
    spaced 1000 (toggle_times actions s) /\
    Forall (fun t => last_change_blink_time s + 1000 <= t) (toggle_times actions s).
Proof.
  induction actions as [|a rest IH]; intros s t0 Hrun Hheld Hlast Hclk.
  - split; [exact I | constructor].
  - cbn [timeout_held] in Hheld. apply andb_prop in Hheld as [Hg Hheld].
    pose proof (proj2 (perform_frame a s)) as Hrun'. rewrite Hrun in Hrun'.
    destruct a as [env | event | gga_info].
    + cbn [clock_monotone] in Hclk. destruct Hclk as [Hm Hclk].
      pose proof (loop_blink env s Hrun Hg) as Hb. cbv zeta in Hb.
      rewrite (u64_small (millis env)) in Hb by lia.
      rewrite (u64_small (millis env - last_change_blink_time s)) in Hb by lia.
      cbn [toggle_times perform] in *.
      rewrite (u64_small (millis env)) by lia.
      destruct Hb as [Hled Hlc].
      destruct (reaches_switch env && (1000 <=? millis env - last_change_blink_time s))
        eqn:Hdue.
      * apply andb_prop in Hdue as [_ Hdue]. apply Z.leb_le in Hdue.
        rewrite Hled. rewrite (Bool.eqb_negb1 (led s LED_ERR)).
        destruct (IH _ (millis env) Hrun' Hheld) as [Hsp Hall];
          [rewrite Hlc; lia | exact Hclk |].
        rewrite Hlc in Hall.
        split.
        -- apply spaced_cons; assumption.
        -- constructor; [lia|].
           eapply List.Forall_impl; [|exact Hall]. cbn. intros; lia.
      * rewrite Hled, Bool.eqb_reflx.
        destruct (IH _ (millis env) Hrun' Hheld) as [Hsp Hall];
          [rewrite Hlc; lia | exact Hclk |].
        rewrite Hlc in Hall. split; assumption.
    + cbn [clock_monotone toggle_times] in *.
      pose proof (eltres_event_cb_frame event s) as F. cbv zeta in F.
      destruct F as (_ & _ & _ & Hlc & _). cbn [perform] in *.
      destruct (IH _ t0 Hrun' Hheld) as [Hsp Hall];
        [rewrite Hlc; lia | exact Hclk |].
      rewrite Hlc in Hall. split; assumption.
    + cbn [clock_monotone toggle_times] in *.
      pose proof (gga_event_cb_frame gga_info s) as F. cbv zeta in F.
      destruct F as (_ & Hst & _). cbn [perform] in *.
      assert (Hlc : last_change_blink_time (res_state (gga_event_cb gga_info s)) =
                    last_change_blink_time s) by (rewrite Hst; reflexivity).
      destruct (IH _ t0 Hrun' Hheld) as [Hsp Hall];
        [rewrite Hlc; lia | exact Hclk |].
      rewrite Hlc in Hall. split; assumption.
Qed.

(** Claim C9, as the code has it.  While the GNSS timeout flag is held set
    in the running state and [millis] does not go back, a tick changes the
    level of the error indicator exactly when it reaches the [switch] and
    at least 1000 ms have passed since the time stamp of the last change,
    and it then moves the time stamp to its own time; so two changes are
    never less than 1000 ms apart, and the first is at least 1000 ms after
    the initial time stamp.  How soon after the 1000 ms a change comes is up
    to the spacing of the ticks. *)
Theorem blink_spacing (actions : list action) (s : State) (t0 : Z) :
  program_sts s = PROGRAM_STS_RUNNING ->
  timeout_held actions s = true ->
  0 <= last_change_blink_time s <= t0 ->
  clock_monotone t0 actions ->
  spaced 1000 (toggle_times actions s) /\
  Forall (fun t => last_change_blink_time s + 1000 <= t) (toggle_times actions s) /\
  (forall env rest,
      actions = Tick env :: rest ->
      let s' := res_state (loop env s) in
      (led s' LED_ERR <> led s LED_ERR <->
       reaches_switch env = true /\
       1000 <= millis env - last_change_blink_time s) /\
      (led s' LED_ERR <> led s LED_ERR ->
       last_change_blink_time s' = millis env) /\
      (led s' LED_ERR = led s LED_ERR ->
       last_change_blink_time s' = last_change_blink_time s)).
Proof.
  intros Hrun Hheld Hlast Hclk.
  destruct (toggle_times_spaced actions s t0 Hrun Hheld Hlast Hclk) as [Hsp Hall].
  split; [exact Hsp|]. split; [exact Hall|].
  intros env rest -> s'.
  cbn [timeout_held] in Hheld. apply andb_prop in Hheld as [Hg _].
  cbn [clock_monotone] in Hclk. destruct Hclk as [Hm _].
  pose proof (loop_blink env s Hrun Hg) as Hb. cbv zeta in Hb. fold s' in Hb.
  rewrite (u64_small (millis env)) in Hb by lia.
  rewrite (u64_small (millis env - last_change_blink_time s)) in Hb by lia.
  destruct Hb as [Hled Hlc]. rewrite Hled, Hlc.
  destruct (reaches_switch env); cbn [andb].
  - destruct (Z.leb_spec 1000 (millis env - last_change_blink_time s)).
    + repeat split; try assumption; try reflexivity.
      * destruct (led s LED_ERR); discriminate.
      * intros E. destruct (led s LED_ERR); discriminate E.
    + split; [|split]; try reflexivity.
      * split; [intros E; now contradiction E | intros [_ E]; lia].
      * intros E. now contradiction E.
  - split; [|split]; try reflexivity.
    + split; [intros E; now contradiction E | intros [E _]; discriminate E].
    + intros E. now contradiction E.
Qed.

Lemma blink_spacing_witness :
  let s := set_gnss_recevie_timeout true Sample.started in
  spaced 1000
    (toggle_times [ Tick (Sample.good_tick 0 Sample.f_zero 1000);
                    RadioEvent ELTRES_BOARD_EVT_SEND_READY;
                    Tick (Sample.good_tick 1 Sample.f_zero 1500);
                    Tick (Sample.good_tick 1 Sample.f_zero 2500) ] s).
Proof.
  intros s.
  refine (proj1 (blink_spacing _ s 0 _ _ _ _)).
  - reflexivity.
  - vm_compute. reflexivity.
  - vm_compute. split; discriminate.
  - vm_compute. repeat split; discriminate.
Defined.

(** Claim C9 as stated fails in its first half.  With the GNSS timeout flag
    held set in the running state and ticks at 1000, 2500 and 4000 ms, the
    error indicator changes at exactly those times; the 1000 ms window from
    1200 to 2200 lies inside the run and holds no change. *)
Lemma blink_misses_a_window :
  let s := set_gnss_recevie_timeout true Sample.started in
  let actions := [ Tick (Sample.good_tick 0 Sample.f_zero 1000);
                   Tick (Sample.good_tick 0 Sample.f_zero 2500);
                   Tick (Sample.good_tick 0 Sample.f_zero 4000) ] in
  program_sts s = PROGRAM_STS_RUNNING /\
  timeout_held actions s = true /\
  toggle_times actions s = [1000; 2500; 4000] /\
  ~ (exists t, In t (toggle_times actions s) /\ 1200 <= t <= 2200) /\
  ~ every_window_hit 1000 1000 4000 (toggle_times actions s).
Proof.
  cbv zeta.
  assert (Ht : toggle_times
                 [ Tick (Sample.good_tick 0 Sample.f_zero 1000);
                   Tick (Sample.good_tick 0 Sample.f_zero 2500);
                   Tick (Sample.good_tick 0 Sample.f_zero 4000) ]
                 (set_gnss_recevie_timeout true Sample.started) =
               [1000; 2500; 4000]) by (vm_compute; reflexivity).
  split; [reflexivity|]. split; [vm_compute; reflexivity|].
  split; [exact Ht|]. rewrite Ht.
  assert (Hno : ~ (exists t, In t [1000; 2500; 4000] /\ 1200 <= t <= 2200)).
  { intros (t & Hin & Hr). cbn in Hin. lia. }
  split; [exact Hno|].
  intros W. apply Hno. apply (W 1200); lia.
Qed.

(** ** Frame preprocessing *)

Lemma for_loop_S {A : Type} (n : nat) (body : nat -> A -> A) (a : A) :
  for_loop (S n) body a = body n (for_loop n body a).
Proof.
  unfold for_loop. rewrite List.seq_S, List.fold_left_app. reflexivity.
Qed.

Lemma store_row_length (sample : nat -> spec_float) (start width : nat)
    (acc : list spec_float) :
  length (store_row sample start width acc) = length acc.
Proof.
  unfold store_row. induction width as [|w IH]; [reflexivity|].
  rewrite for_loop_S, length_insert. exact IH.
Qed.

Lemma store_row_lookup_inside (sample : nat -> spec_float) (start width : nat)
    (acc : list spec_float) (i : nat) :
  (start <= i < start + width)%nat -> (i < length acc)%nat ->
  store_row sample start width acc !! i = Some (sample i).
Proof.
  unfold store_row. induction width as [|w IH]; intros Hi Hlen; [lia|].
  rewrite for_loop_S.
  destruct (Nat.eq_dec i (start + w)%nat) as [->|Hne].
  - apply list_lookup_insert_eq. fold (store_row sample start w acc).
    rewrite store_row_length. exact Hlen.
  - rewrite list_lookup_insert_ne by lia. apply IH; lia.
Qed.

Lemma store_row_lookup_outside (sample : nat -> spec_float) (start width : nat)
    (acc : list spec_float) (i : nat) :
  (i < start \/ start + width <= i)%nat ->
  store_row sample start width acc !! i = acc !! i.
Proof.
  unfold store_row. induction width as [|w IH]; intros Hi; [reflexivity|].
  rewrite for_loop_S, list_lookup_insert_ne by lia. apply IH. lia.
Qed.

Lemma store_rows_length (sample : nat -> spec_float) (width height : nat)
    (acc : list spec_float) :
  length (store_rows sample width height acc) = length acc.
Proof.
  unfold store_rows. induction height as [|h IH]; [reflexivity|].
  rewrite for_loop_S, store_row_length. exact IH.
Qed.

Lemma store_rows_lookup_inside (sample : nat -> spec_float) (width height : nat)
    (acc : list spec_float) (i : nat) :
  (i < height * width)%nat -> (i < length acc)%nat ->
  store_rows sample width height acc !! i = Some (sample i).
Proof.
  unfold store_rows. induction height as [|h IH]; intros Hi Hlen; [lia|].
  rewrite for_loop_S. fold (store_rows sample width h acc).
  destruct (Nat.lt_ge_cases i (h * width)) as [Hlt|Hge].
  - rewrite store_row_lookup_outside by lia. apply IH; assumption.
  - apply store_row_lookup_inside; [lia|]. rewrite store_rows_length. exact Hlen.
Qed.

Lemma store_rows_lookup_outside (sample : nat -> spec_float) (width height : nat)
    (acc : list spec_float) (i : nat) :
  (height * width <= i)%nat ->
  store_rows sample width height acc !! i = acc !! i.
Proof.
  unfold store_rows. induction height as [|h IH]; intros Hi; [reflexivity|].
  rewrite for_loop_S. fold (store_rows sample width h acc).
  rewrite store_row_lookup_outside by lia. apply IH. lia.
Qed.

(** The loops of [fill_input_gen] are these stores with the normalized
    pixel as sample. *)
Lemma fill_input_gen_store_rows (width height : nat) (camera_buf : list Z)
    (input : list spec_float) :
  fill_input_gen width height camera_buf input =
  store_rows (fun i => normalize (read_u8 camera_buf i)) width height input.
Proof. reflexivity. Qed.

Lemma fill_input_gen_spec (width height : nat) (camera_buf : list Z)
    (input : list spec_float) :
  length (fill_input_gen width height camera_buf input) = length input /\
  (forall i, (i < height * width)%nat -> (i < length input)%nat ->
             fill_input_gen width height camera_buf input !! i =
             Some (normalize (read_u8 camera_buf i))) /\
  (forall i, (height * width <= i)%nat ->
             fill_input_gen width height camera_buf input !! i = input !! i).
Proof.
  rewrite fill_input_gen_store_rows.
  split; [apply store_rows_length|].
  split; intros i.
  - apply (store_rows_lookup_inside (fun i => normalize (read_u8 camera_buf i))).
  - apply store_rows_lookup_outside.
Qed.

Lemma all_pixels_check :
  forallb pixel_check (List.map Z.of_nat (List.seq 0 256)) = true.
Proof. vm_compute. reflexivity. Qed.

Lemma pixel_check_holds (p : Z) : 0 <= p <= 255 -> pixel_check p = true.
Proof.
  intros Hp.
  apply (proj1 (List.forallb_forall _ _) all_pixels_check).
  apply List.in_map_iff. exists (Z.to_nat p).
  split; [lia|]. apply List.in_seq. lia.
Qed.

(** Claim C6.  For a valid frame (56 x 56 pixels of 8 bits) and the
    56 x 56 input tensor, preprocessing stores one sample per pixel, in
    row-major order, and nothing else: the tensor keeps its 3136 entries and
    entry [i] is pixel [i] divided by 255.0 (in [double], then narrowed
    to [float]).  Every sample lies in [0.0, 1.0]; it equals 1.0 exactly
    when the pixel is 255 and 0.0 exactly when the pixel is 0. *)
Theorem preprocessing_normalizes (camera_buf : list Z) (input : list spec_float) :
  valid_frame camera_buf = true ->
  length input = Z.to_nat (INPUT_WIDTH * INPUT_HEIGHT) ->
  let tensor := fill_input camera_buf input in
  length tensor = Z.to_nat (INPUT_WIDTH * INPUT_HEIGHT) /\
  Z.of_nat (length tensor) = INPUT_WIDTH * INPUT_HEIGHT /\
  (forall i, (i < Z.to_nat (INPUT_WIDTH * INPUT_HEIGHT))%nat ->
     exists p,
       camera_buf !! i = Some p /\ 0 <= p <= 255 /\
       tensor !! i = Some (normalize p) /\
       normalize p =
         Flt.float_of_double (Flt.ddiv (Flt.double_of_Z p) (Flt.double_of_Z 255)) /\
       in_unit_interval (normalize p) = true /\
       (is_one (normalize p) = true <-> p = 255) /\
       (is_zero (normalize p) = true <-> p = 0)) /\
  (forall i, (Z.to_nat (INPUT_WIDTH * INPUT_HEIGHT) <= i)%nat -> tensor !! i = None).
Proof.
  intros Hvalid Hlen tensor.
  unfold valid_frame in Hvalid. apply andb_prop in Hvalid as [Hbuf Hpix].
  apply Nat.eqb_eq in Hbuf.
  destruct (fill_input_gen_spec (Z.to_nat INPUT_WIDTH) (Z.to_nat INPUT_HEIGHT)
              camera_buf input) as (Hl & Hin & Hout).
  fold (fill_input camera_buf input) in Hl, Hin, Hout. fold tensor in Hl, Hin, Hout.
  assert (Hsize : (Z.to_nat INPUT_HEIGHT * Z.to_nat INPUT_WIDTH)%nat =
                  Z.to_nat (INPUT_WIDTH * INPUT_HEIGHT)) by reflexivity.
  rewrite Hsize in Hin, Hout.
  split; [congruence|].
  split; [rewrite Hl, Hlen; reflexivity|].
  split.
  - intros i Hi.
    destruct (lookup_lt_is_Some_2 camera_buf i) as [p Hp]; [lia|].
    assert (Hrange : 0 <= p <= 255).
    { pose proof (proj1 (List.forallb_forall _ _) Hpix p) as H.
      assert (Hin' : In p camera_buf).
      { apply list_elem_of_In. apply list_elem_of_lookup. eauto. }
      specialize (H Hin'). apply andb_prop in H as [H1 H2]. lia. }
    exists p. split; [exact Hp|]. split; [exact Hrange|].
    split.
    { rewrite Hin by lia. unfold read_u8. rewrite Hp, u8_small by lia. reflexivity. }
    split; [reflexivity|].
    pose proof (pixel_check_holds p Hrange) as Hc. unfold pixel_check in Hc.
    apply andb_prop in Hc as [Hc Hz]. apply andb_prop in Hc as [Hu Ho].
    apply Bool.eqb_prop in Ho, Hz.
    split; [exact Hu|].
    split; [rewrite Ho; apply Z.eqb_eq | rewrite Hz; apply Z.eqb_eq].
  - intros i Hi. apply lookup_ge_None. lia.
Qed.

Lemma preprocessing_normalizes_witness :
  length (fill_input (Sample.flat_frame 255) (input_data initial_state)) =
  Z.to_nat (INPUT_WIDTH * INPUT_HEIGHT).
Proof.
  refine (proj1 (preprocessing_normalizes (Sample.flat_frame 255)
                   (input_data initial_state) _ _)).
  - vm_compute. reflexivity.
  - vm_compute. reflexivity.
Defined.

(** * Further properties of the sketch *)

(** ** Frames of the two halves and of one pass of [loop] *)

Lemma payload_handoff_frame (env : tick_env) (s : State) :
  let r := payload_handoff env s in
  res_status r = Going /\
  program_sts (res_state r) = program_sts s /\
  gnss_recevie_timeout (res_state r) = gnss_recevie_timeout s /\
  last_change_blink_time (res_state r) = last_change_blink_time s /\
  last_gga_info (res_state r) = last_gga_info s /\
  flag (res_state r) = flag s /\
  input_data (res_state r) = input_data s /\
  (forall p, led (res_state r) p = led s p) /\
  indicator_writes (res_effects r) = [].
Proof.
  destruct (event_send_ready s) eqn:Hr.
  - rewrite (payload_handoff_ready env s Hr). cbn. auto 10.
  - rewrite (payload_handoff_idle env s Hr). cbn. auto 10.
Qed.

Lemma error_indicator_leds (env : tick_env) (s : State) (p : pin) :
  p <> LED_ERR ->
  led (res_state (error_indicator_update env s)) p = led s p.
Proof.
  intros Hp.
  destruct (gnss_recevie_timeout s) eqn:Hg.
  - destruct (1000 <=? u64 (u64 (millis env) - last_change_blink_time s)) eqn:Hd.
    + rewrite (error_indicator_due env s Hg Hd). cbn. destruct p; congruence.
    + rewrite (error_indicator_wait env s Hg Hd). reflexivity.
  - rewrite (error_indicator_clear env s Hg). cbn. destruct p; congruence.
Qed.

(** The globals after one pass of [loop], by the way the pass ends. *)
Lemma loop_state (env : tick_env) (s : State) :
  res_state (loop env s) =
  if reaches_switch env then
    if program_sts s =? PROGRAM_STS_RUNNING then
      res_state (payload_handoff env
                   (res_state (error_indicator_update env (before_switch env s))))
    else before_switch env s
  else set_flag (random_0_2 env) s.
Proof.
  destruct (reaches_switch env) eqn:Hreach.
  - rewrite (loop_reaching _ _ Hreach). cbn [res_state].
    destruct (Z.eqb_spec (program_sts s) PROGRAM_STS_RUNNING) as [Hrun|Hrun].
    + rewrite (state_switch_running env (before_switch env s)) by exact Hrun.
      unfold and_then.
      pose proof (error_indicator_frame env (before_switch env s)) as F.
      cbv zeta in F. destruct F as (Hst & _).
      destruct (error_indicator_update env (before_switch env s)) as [st s1 e1].
      cbn in Hst. subst st. cbn [res_state].
      destruct (payload_handoff env s1); reflexivity.
    + rewrite (state_switch_not_running env (before_switch env s)) by exact Hrun.
      reflexivity.
  - now destruct (loop_abandoned env s Hreach) as (_ & H & _).
Qed.

Lemma loop_led_other (env : tick_env) (s : State) (p : pin) :
  p <> LED_ERR -> led (res_state (loop env s)) p = led s p.
Proof.
  intros Hp. rewrite loop_state.
  destruct (reaches_switch env); [|reflexivity].
  destruct (program_sts s =? PROGRAM_STS_RUNNING); [|reflexivity].
  pose proof (payload_handoff_frame env
                (res_state (error_indicator_update env (before_switch env s)))) as F.
  cbv zeta in F. destruct F as (_ & _ & _ & _ & _ & _ & _ & Hl & _).
  rewrite Hl, error_indicator_leds by exact Hp. reflexivity.
Qed.

Lemma loop_last_gga_info (env : tick_env) (s : State) :
  last_gga_info (res_state (loop env s)) = last_gga_info s.
Proof.
  rewrite loop_state.
  destruct (reaches_switch env); [|reflexivity].
  destruct (program_sts s =? PROGRAM_STS_RUNNING); [|reflexivity].
  pose proof (payload_handoff_frame env
                (res_state (error_indicator_update env (before_switch env s)))) as F.
  cbv zeta in F. destruct F as (_ & _ & _ & _ & Hg & _).
  pose proof (error_indicator_frame env (before_switch env s)) as E.
  cbv zeta in E. destruct E as (_ & _ & _ & _ & _ & Hg' & _).
  rewrite Hg, Hg'. reflexivity.
Qed.

(** What a tick hands over, whatever the state. *)
Lemma loop_handoffs_any (env : tick_env) (s : State) :
  handoffs (res_effects (loop env s)) =
  if reaches_switch env && (program_sts s =? PROGRAM_STS_RUNNING)
     && event_send_ready s
  then [ SetPayload (encode (s16 (random_0_2 env)) (last_gga_info s)
                       (gnss_clock env)) ]
  else [].
Proof.
  destruct (reaches_switch env) eqn:Hreach; cbn [andb].
  - destruct (Z.eqb_spec (program_sts s) PROGRAM_STS_RUNNING) as [Hrun|Hrun];
      cbn [andb].
    + pose proof (loop_handoffs env s Hrun Hreach) as H. cbv zeta in H.
      now destruct H as (_ & _ & _ & _ & H).
    + rewrite (loop_reaching _ _ Hreach). cbn [res_effects].
      rewrite (state_switch_not_running env (before_switch env s)) by exact Hrun.
      cbn [res_effects]. rewrite !handoffs_app.
      rewrite (proj1 (tick_prefix_quiet env)), (proj1 (detection_report_quiet _)).
      reflexivity.
  - now destruct (loop_abandoned env s Hreach) as (_ & _ & H & _).
Qed.

Lemma run_state_cons (a : action) (rest : list action) (s : State) :
  res_state (run (a :: rest) s) = res_state (run rest (res_state (perform a s))).
Proof. rewrite run_cons. reflexivity. Qed.

Lemma run_effects_cons (a : action) (rest : list action) (s : State) :
  res_effects (run (a :: rest) s) =
  res_effects (perform a s) ++ res_effects (run rest (res_state (perform a s))).
Proof. rewrite run_cons. reflexivity. Qed.

(** ** Hand-offs over a whole run *)

Lemma perform_handoff_budget (a : action) (s : State) :
  (length (handoffs (res_effects (perform a s))) +
   Nat.b2n (event_send_ready (res_state (perform a s))) <=
   Nat.b2n (is_send_ready a) + Nat.b2n (event_send_ready s))%nat.
Proof.
  destruct a as [env | event | gga_info]; cbn [perform is_send_ready].
  - rewrite loop_handoffs_any. rewrite (proj2 (loop_flags env s)).
    destruct (reaches_switch env && (program_sts s =? PROGRAM_STS_RUNNING));
      cbn [andb]; destruct (event_send_ready s); cbn; lia.
  - destruct event; cbn; destruct (event_send_ready s); cbn; lia.
  - pose proof (gga_event_cb_frame gga_info s) as F. cbv zeta in F.
    destruct F as (_ & Hst & Hh & _). rewrite Hst, Hh. cbn. lia.
Qed.

Lemma run_handoff_budget (actions : list action) :
  forall s,
    (length (handoffs (res_effects (run actions s))) +
     Nat.b2n (event_send_ready (res_state (run actions s))) <=
     count_send_ready actions + Nat.b2n (event_send_ready s))%nat.
Proof.
  induction actions as [|a rest IH]; intros s.
  - cbn. lia.
  - rewrite run_state_cons, run_effects_cons, handoffs_app, length_app.
    pose proof (perform_handoff_budget a s) as Ha.
    pose proof (IH (res_state (perform a s))) as Hr.
    unfold count_send_ready in *. cbn [List.filter].
    destruct (is_send_ready a); cbn [length Nat.b2n] in *; lia.
Qed.

Lemma setup_quiet (env : setup_env) (s : State) :
  handoffs (res_effects (setup env s)) = [] /\
  payload (res_state (setup env s)) = payload s.
Proof.
  unfold setup.
  destruct (negb (ret_elt env =? ELTRES_BOARD_RESULT_OK)); [split; reflexivity|].
  destruct (negb (nnbfile_found env)); [split; reflexivity|].
  destruct (dnnrt_begin_ret env <? 0); [split; reflexivity|].
  destruct (negb (camera_begin_err env =? CAM_ERR_SUCCESS)); [split; reflexivity|].
  destruct (negb (camera_format_err env =? CAM_ERR_SUCCESS)); split; reflexivity.
Qed.

Lemma program_effects (env : setup_env) (actions : list action) :
  exists rest,
    res_effects (program env actions) =
    res_effects (setup env initial_state) ++ rest /\
    (rest = [] \/
     rest = res_effects (run actions (res_state (setup env initial_state)))).
Proof.
  unfold program, and_then.
  destruct (setup env initial_state) as [[] s1 e1]; cbn [res_effects res_state].
  - destruct (run actions s1) as [st s2 e2] eqn:Hr. cbn [res_effects].
    exists e2. auto.
  - exists []. rewrite List.app_nil_r. auto.
Qed.

(** At most one payload per window: over any run, the number of payloads
    handed to the radio never exceeds the number of window-approaching
    events received (plus one if the flag was already set at the start),
    counting a still pending flag as a hand-off to come.  From power-on the
    flag is clear, so hand-offs never outnumber the events. *)
Theorem handoffs_bounded_by_events (env : setup_env) (actions : list action)
    (s : State) :
  (length (handoffs (res_effects (run actions s))) +
   Nat.b2n (event_send_ready (res_state (run actions s))) <=
   count_send_ready actions + Nat.b2n (event_send_ready s))%nat /\
  (length (handoffs (res_effects (program env actions))) <=
   count_send_ready actions)%nat.
Proof.
  split; [apply run_handoff_budget|].
  destruct (program_effects env actions) as (rest & -> & Hrest).
  rewrite handoffs_app, (proj1 (setup_quiet env initial_state)). cbn [app].
  destruct Hrest as [-> | ->]; [cbn; lia|].
  pose proof (run_handoff_budget actions (res_state (setup env initial_state))) as H.
  rewrite (proj2 (setup_flags env initial_state)) in H.
  change (event_send_ready initial_state) with false in H.
  cbn [Nat.b2n] in H. lia.
Qed.

(** ** Shape of every payload handed over *)

Lemma encode_bytes (f : Z) (g : eltres_board_gga_info) (c : Z) :
  encode f g c =
  [ 0x8A; f mod 256; 0; 0; 0; 0; 0; 0; 0; 0;
    (((c - 18) mod 2 ^ 32) / 2 ^ 24) mod 256;
    (((c - 18) mod 2 ^ 32) / 2 ^ 16) mod 256;
    (((c - 18) mod 2 ^ 32) / 2 ^ 8) mod 256;
    ((c - 18) mod 2 ^ 32) mod 256;
    0; m_pos_status g mod 256 ].
Proof. unfold encode. now rewrite setup_payload_detection_bytes. Qed.

Lemma encode_well_formed (f : Z) (g : eltres_board_gga_info) (c : Z) :
  well_formed_payload (encode f g c).
Proof.
  rewrite encode_bytes. unfold well_formed_payload.
  split; [reflexivity|]. split.
  - repeat (apply List.Forall_cons; [first [lia | apply Z.mod_pos_bound; lia]|]).
    apply List.Forall_nil.
  - split; [reflexivity|]. split; [|reflexivity].
    intros i Hi.
    do 10 (destruct i as [|i]; [first [lia | reflexivity]|]). lia.
Qed.

Lemma perform_handoffs_well_formed (a : action) (s : State) (bytes : list Z) :
  In (SetPayload bytes) (res_effects (perform a s)) ->
  well_formed_payload bytes.
Proof.
  intros Hin.
  assert (Hh : In (SetPayload bytes) (handoffs (res_effects (perform a s)))).
  { apply List.filter_In. split; [exact Hin | reflexivity]. }
  destruct a as [env | event | gga_info]; cbn [perform] in Hh.
  - rewrite loop_handoffs_any in Hh.
    destruct (reaches_switch env && (program_sts s =? PROGRAM_STS_RUNNING)
              && event_send_ready s); [|contradiction].
    destruct Hh as [Hh|[]]. injection Hh as <-. apply encode_well_formed.
  - pose proof (eltres_event_cb_frame event s) as F. cbv zeta in F.
    destruct F as (_ & _ & _ & _ & F). rewrite F in Hh. contradiction.
  - pose proof (gga_event_cb_frame gga_info s) as F. cbv zeta in F.
    destruct F as (_ & _ & F & _). rewrite F in Hh. contradiction.
Qed.

Lemma run_handoffs_well_formed (actions : list action) :
  forall s bytes,
    In (SetPayload bytes) (res_effects (run actions s)) ->
    well_formed_payload bytes.
Proof.
  induction actions as [|a rest IH]; intros s bytes Hin.
  - contradiction.
  - rewrite run_effects_cons in Hin. apply List.in_app_or in Hin as [Hin|Hin].
    + exact (perform_handoffs_well_formed a s bytes Hin).
    + exact (IH _ _ Hin).
Qed.

(** Whatever the start-up results, the ticks, the events and the fix
    updates are, every payload the sketch hands to the radio has 16 bytes
    in 0..255, starts with the tag 0x8A and has zero in bytes 2 to 9 and in
    byte 14; nothing of an earlier payload or of a half-written buffer is
    ever sent. *)
Theorem handed_payloads_well_formed (env : setup_env) (actions : list action)
    (bytes : list Z) :
  In (SetPayload bytes) (res_effects (program env actions)) ->
  well_formed_payload bytes.
Proof.
  intros Hin.
  destruct (program_effects env actions) as (rest & Heq & Hrest).
  rewrite Heq in Hin. apply List.in_app_or in Hin as [Hin|Hin].
  - assert (Hh : In (SetPayload bytes)
                    (handoffs (res_effects (setup env initial_state)))).
    { apply List.filter_In. split; [exact Hin | reflexivity]. }
    rewrite (proj1 (setup_quiet env initial_state)) in Hh. contradiction.
  - destruct Hrest as [-> | ->]; [contradiction|].
    exact (run_handoffs_well_formed actions _ _ Hin).
Qed.

Lemma handed_payloads_well_formed_witness :
  well_formed_payload
    [0x8A; 1; 0; 0; 0; 0; 0; 0; 0; 0; 0x00; 0x0F; 0x42; 0x40; 0; 0].
Proof.
  apply (handed_payloads_well_formed Sample.setup_ok
           [ RadioEvent ELTRES_BOARD_EVT_SEND_READY;
             Tick (Sample.good_tick 1 Sample.f_zero 1000) ]).
  vm_compute. repeat (first [left; reflexivity | right]).
Defined.

(** ** Fix updates and the payload *)

Lemma s16_low_byte (z : Z) : s16 z mod 256 = z mod 256.
Proof.
  unfold s16, wrap_signed.
  change (2 ^ (16 - 1)) with 32768. change (2 ^ 16) with 65536.
  Z.div_mod_to_equations. lia.
Qed.

Lemma perform_last_gga_info (a : action) (s : State) :
  last_gga_info (res_state (perform a s)) =
  match a with FixUpdate g => g | _ => last_gga_info s end.
Proof.
  destruct a as [env | event | gga_info]; cbn [perform].
  - apply loop_last_gga_info.
  - destruct event; reflexivity.
  - pose proof (gga_event_cb_frame gga_info s) as F. cbv zeta in F.
    destruct F as (_ & -> & _). reflexivity.
Qed.

Lemma run_last_gga_info (actions : list action) :
  forall s,
    last_gga_info (res_state (run actions s)) = last_fix actions (last_gga_info s).
Proof.
  induction actions as [|a rest IH]; intros s; [reflexivity|].
  rewrite run_state_cons, IH, perform_last_gga_info. reflexivity.
Qed.

(** The fix record kept by the sketch is always the one of the latest fix
    update, valid or not; ticks and radio events never change it.  So a
    payload handed over after any history carries, in byte 15, the low
    eight bits of the quality of the latest fix update (zero for an invalid
    fix), and in byte 1 the low eight bits of that tick's random draw. *)
Theorem handoff_carries_latest_fix (actions : list action) (env : tick_env)
    (s : State) :
  last_gga_info (res_state (run actions s)) = last_fix actions (last_gga_info s) /\
  (program_sts s = PROGRAM_STS_RUNNING ->
   reaches_switch env = true ->
   event_send_ready (res_state (run actions s)) = true ->
   let latest := last_fix actions (last_gga_info s) in
   let bytes := encode (s16 (random_0_2 env)) latest (gnss_clock env) in
   handoffs (res_effects (loop env (res_state (run actions s)))) =
     [ SetPayload bytes ] /\
   decode_flag bytes = Some (random_0_2 env mod 256) /\
   decode_quality bytes = Some (m_pos_status latest mod 256)).
Proof.
  split; [apply run_last_gga_info|].
  intros Hrun Hreach Hready latest bytes.
  rewrite loop_handoffs_any, Hreach, Hready, (proj2 (run_frame actions s)), Hrun.
  cbn [andb Z.eqb Pos.eqb PROGRAM_STS_RUNNING].
  rewrite run_last_gga_info. fold latest. fold bytes.
  split; [reflexivity|].
  subst bytes. rewrite encode_bytes. unfold decode_flag, decode_quality.
  cbn [lookup list_lookup]. rewrite s16_low_byte. split; reflexivity.
Qed.

Lemma handoff_carries_latest_fix_witness :
  handoffs (res_effects
              (loop (Sample.good_tick 1 Sample.f_one 1000)
                 (res_state
                    (run [ RadioEvent ELTRES_BOARD_EVT_SEND_READY;
                           FixUpdate gga_zero ] Sample.started)))) =
  [ SetPayload [0x8A; 1; 0; 0; 0; 0; 0; 0; 0; 0; 0x00; 0x0F; 0x42; 0x40; 0; 0] ].
Proof.
  destruct (handoff_carries_latest_fix
              [ RadioEvent ELTRES_BOARD_EVT_SEND_READY; FixUpdate gga_zero ]
              (Sample.good_tick 1 Sample.f_one 1000) Sample.started)
    as (_ & H).
  destruct H as (H & _); [reflexivity | reflexivity | reflexivity |].
  rewrite H. reflexivity.
Defined.

(** ** Levels driven by the radio events *)

Lemma perform_levels (a : action) (s : State) :
  gnss_recevie_timeout (res_state (perform a s)) =
    level_step ELTRES_BOARD_EVT_GNSS_TMOUT ELTRES_BOARD_EVT_GNSS_RECEIVE
      (gnss_recevie_timeout s) a /\
  led (res_state (perform a s)) LED_SND =
    level_step ELTRES_BOARD_EVT_SENDING ELTRES_BOARD_EVT_IDLE (led s LED_SND) a /\
  led (res_state (perform a s)) LED_GNSS =
    level_step ELTRES_BOARD_EVT_GNSS_RECEIVE ELTRES_BOARD_EVT_GNSS_UNRECEIVE
      (led s LED_GNSS) a /\
  led (res_state (perform a s)) LED_RUN = led s LED_RUN.
Proof.
  destruct a as [env | event | gga_info]; cbn [perform level_step].
  - rewrite (proj1 (loop_flags env s)), !loop_led_other by discriminate. auto.
  - destruct event; cbn; auto.
  - pose proof (gga_event_cb_frame gga_info s) as F. cbv zeta in F.
    destruct F as (_ & -> & _). cbn. auto.
Qed.

(** The GNSS timeout flag and the two radio indicators are levels: after
    any mix of ticks, events and fix updates the timeout flag is set exactly
    when the latest of the timeout and fix-acquired events was a timeout,
    the sending indicator is on exactly when the latest of the sending and
    idle events was sending, and the fix indicator is on exactly when the
    latest of the fix-acquired and fix-lost events was fix-acquired; with no
    such event each keeps its value.  The running indicator never changes
    after start-up. *)
Theorem radio_levels_follow_latest_event (actions : list action) (s : State) :
  let s' := res_state (run actions s) in
  gnss_recevie_timeout s' =
    level_after ELTRES_BOARD_EVT_GNSS_TMOUT ELTRES_BOARD_EVT_GNSS_RECEIVE
      actions (gnss_recevie_timeout s) /\
  led s' LED_SND =
    level_after ELTRES_BOARD_EVT_SENDING ELTRES_BOARD_EVT_IDLE
      actions (led s LED_SND) /\
  led s' LED_GNSS =
    level_after ELTRES_BOARD_EVT_GNSS_RECEIVE ELTRES_BOARD_EVT_GNSS_UNRECEIVE
      actions (led s LED_GNSS) /\
  led s' LED_RUN = led s LED_RUN.
Proof.
  cbv zeta. revert s. induction actions as [|a rest IH]; intros s.
  - repeat split.
  - rewrite run_state_cons.
    destruct (IH (res_state (perform a s))) as (H1 & H2 & H3 & H4).
    destruct (perform_levels a s) as (P1 & P2 & P3 & P4).
    rewrite H1, H2, H3, H4, P1, P2, P3, P4. unfold level_after. cbn [fold_left].
    repeat split.
Qed.

(** ** After start-up *)

Lemma setup_success_state (env : setup_env) (s : State) :
  startup_outcome env = None ->
  setup env s =
  Result Going
    (set_program_sts PROGRAM_STS_RUNNING
       (set_led LED_ERR LOW (set_led LED_SND LOW
          (set_led LED_GNSS LOW (set_led LED_RUN HIGH s)))))
    [ PinModeOutput LED_RUN; DigitalWrite LED_RUN HIGH;
      PinModeOutput LED_GNSS; DigitalWrite LED_GNSS LOW;
      PinModeOutput LED_SND; DigitalWrite LED_SND LOW;
      PinModeOutput LED_ERR; DigitalWrite LED_ERR LOW;
      SerialPrintln "続行" ].
Proof.
  unfold startup_outcome, setup. intros H.
  repeat match type of H with
         | (if ?c then _ else _) = _ => destruct c; try discriminate
         end.
  reflexivity.
Qed.

Lemma program_state_going (env : setup_env) (actions : list action) :
  res_status (setup env initial_state) = Going ->
  res_state (program env actions) =
  res_state (run actions (res_state (setup env initial_state))).
Proof.
  unfold program, and_then. intros H.
  destruct (setup env initial_state) as [st s1 e1]. cbn in H. subst st.
  cbn [res_state]. destruct (run actions s1); reflexivity.
Qed.

Lemma perform_stopped_led_err (a : action) (s : State) :
  program_sts s = PROGRAM_STS_STOPPED ->
  led (res_state (perform a s)) LED_ERR = led s LED_ERR.
Proof.
  intros Hs. destruct a as [env | event | gga_info]; cbn [perform].
  - now destruct (stopped_tick_quiet env s Hs) as (_ & _ & H & _).
  - pose proof (eltres_event_cb_frame event s) as F. cbv zeta in F. tauto.
  - pose proof (gga_event_cb_frame gga_info s) as F. cbv zeta in F.
    destruct F as (_ & -> & _). reflexivity.
Qed.

Lemma run_stopped_led_err (actions : list action) :
  forall s,
    program_sts s = PROGRAM_STS_STOPPED ->
    led (res_state (run actions s)) LED_ERR = led s LED_ERR.
Proof.
  induction actions as [|a rest IH]; intros s Hs; [reflexivity|].
  rewrite run_state_cons, IH, perform_stopped_led_err by
    (try rewrite (proj2 (perform_frame a s)); exact Hs).
  reflexivity.
Qed.

Lemma run_led_run (actions : list action) :
  forall s, led (res_state (run actions s)) LED_RUN = led s LED_RUN.
Proof.
  induction actions as [|a rest IH]; intros s; [reflexivity|].
  rewrite run_state_cons, IH. apply perform_levels.
Qed.

(** When [setup] returns (rather than ending the program), the sketch is
    for ever in one of two conditions, whatever ticks, events and fix
    updates follow.  Either every start-up step succeeded: [program_sts] is
    [PROGRAM_STS_RUNNING] and the running indicator is on.  Or the radio
    failed to start: [program_sts] is [PROGRAM_STS_STOPPED], the running
    indicator is off and the error indicator stays latched on.  So the
    running indicator mirrors the state, and [program_sts] is never
    [PROGRAM_STS_INIT] when [loop] runs. *)
Theorem running_indicator_mirrors_state (env : setup_env) (actions : list action) :
  res_status (setup env initial_state) = Going ->
  let s' := res_state (program env actions) in
  (startup_outcome env = None /\
   program_sts s' = PROGRAM_STS_RUNNING /\
   led s' LED_RUN = HIGH) \/
  (startup_outcome env = Some RadioStartFailure /\
   program_sts s' = PROGRAM_STS_STOPPED /\
   led s' LED_RUN = LOW /\
   led s' LED_ERR = HIGH).
Proof.
  intros Hgo s'. subst s'. rewrite (program_state_going env actions Hgo).
  destruct (startup_outcome env) as [f|] eqn:Hout.
  - assert (Hf : f = RadioStartFailure).
    { destruct f; try reflexivity;
        rewrite (setup_exit_failure env _ initial_state Hout) in Hgo
          by discriminate; discriminate Hgo. }
    subst f. right. split; [reflexivity|].
    rewrite (setup_radio_failure env initial_state Hout). cbn [res_state].
    rewrite (proj2 (run_frame _ _)), run_led_run, run_stopped_led_err
      by reflexivity.
    repeat split.
  - left. split; [reflexivity|].
    rewrite (setup_success_state env initial_state Hout). cbn [res_state].
    rewrite (proj2 (run_frame _ _)), run_led_run. repeat split.
Qed.

Lemma running_indicator_mirrors_state_witness :
  let env := {| ret_elt := -1; nnbfile_found := false; dnnrt_begin_ret := 0;
                camera_begin_err := 0; camera_format_err := 0 |} in
  let s' := res_state (program env
                         [ RadioEvent ELTRES_BOARD_EVT_GNSS_TMOUT;
                           Tick (Sample.good_tick 1 Sample.f_one 5000) ]) in
  program_sts s' = PROGRAM_STS_STOPPED /\ led s' LED_ERR = HIGH.
Proof.
  intros env s'.
  destruct (running_indicator_mirrors_state env
              [ RadioEvent ELTRES_BOARD_EVT_GNSS_TMOUT;
                Tick (Sample.good_tick 1 Sample.f_one 5000) ])
    as [(H & _) | (_ & H1 & _ & H2)]; [reflexivity | discriminate H |].
  split; [exact H1 | exact H2].
Defined.

(** ** Abandoned ticks *)

Lemma loop_overwrites_flag (env : tick_env) (r : Z) (s : State) :
  loop env (set_flag r s) = loop env s.
Proof. reflexivity. Qed.

(** A tick abandoned because the capture, the crop and resize or the
    grayscale conversion failed leaves no trace but the random draw in
    [flag]: tensor, payload, coordination flags, blink time stamp and
    indicators are as before, nothing is written to an indicator or handed
    to the radio, and the next tick behaves exactly as if the abandoned one
    had not happened (it draws [flag] afresh). *)
Theorem abandoned_tick_leaves_no_trace (failed next : tick_env) (s : State) :
  reaches_switch failed = false ->
  res_status (loop failed s) = Going /\
  res_state (loop failed s) = set_flag (random_0_2 failed) s /\
  indicator_writes (res_effects (loop failed s)) = [] /\
  handoffs (res_effects (loop failed s)) = [] /\
  loop next (res_state (loop failed s)) = loop next s.
Proof.
  intros H. destruct (loop_abandoned failed s H) as (H1 & H2 & H3 & H4).
  repeat (split; [assumption|]).
  rewrite H2. apply loop_overwrites_flag.
Qed.

Lemma abandoned_tick_leaves_no_trace_witness :
  loop (Sample.good_tick 0 Sample.f_one 2100)
    (res_state (loop (Sample.failed_capture 1 1000)
                  (set_event_send_ready true Sample.started))) =
  loop (Sample.good_tick 0 Sample.f_one 2100)
    (set_event_send_ready true Sample.started).
Proof.
  destruct (abandoned_tick_leaves_no_trace (Sample.failed_capture 1 1000)
              (Sample.good_tick 0 Sample.f_one 2100)
              (set_event_send_ready true Sample.started))
    as (_ & _ & _ & _ & H); [reflexivity|].
  exact H.
Defined.

(** ** Error indicator without a GNSS timeout *)

(** In the running state with the GNSS timeout flag clear, every tick that
    reaches the [switch] writes the error indicator low (its only indicator
    write) and leaves the blink time stamp alone.  In particular, after the
    fix-acquired event the next such tick turns the error indicator off,
    whatever level the blinking left it at. *)
Theorem error_indicator_off_without_timeout (env : tick_env) (s : State) :
  program_sts s = PROGRAM_STS_RUNNING ->
  reaches_switch env = true ->
  (gnss_recevie_timeout s = false ->
   led (res_state (loop env s)) LED_ERR = LOW /\
   last_change_blink_time (res_state (loop env s)) = last_change_blink_time s /\
   indicator_writes (res_effects (loop env s)) = [ DigitalWrite LED_ERR LOW ]) /\
  led (res_state (run [ RadioEvent ELTRES_BOARD_EVT_GNSS_RECEIVE; Tick env ] s))
      LED_ERR = LOW.
Proof.
  intros Hrun Hreach.
  assert (Hoff : forall s0,
             program_sts s0 = PROGRAM_STS_RUNNING ->
             gnss_recevie_timeout s0 = false ->
             led (res_state (loop env s0)) LED_ERR = LOW /\
             last_change_blink_time (res_state (loop env s0)) =
               last_change_blink_time s0 /\
             indicator_writes (res_effects (loop env s0)) =
               [ DigitalWrite LED_ERR LOW ]).
  { intros s0 Hrun0 Hg.
    rewrite (loop_reaching _ _ Hreach). cbn [res_state res_effects].
    rewrite (state_switch_running env (before_switch env s0)) by exact Hrun0.
    unfold and_then.
    rewrite (error_indicator_clear env (before_switch env s0)) by exact Hg.
    pose proof (payload_handoff_frame env
                  (set_led LED_ERR LOW (before_switch env s0))) as F.
    cbv zeta in F.
    destruct (payload_handoff env (set_led LED_ERR LOW (before_switch env s0)))
      as [st s2 e2].
    cbn [res_status res_state res_effects] in *.
    destruct F as (_ & _ & _ & Hlc & _ & _ & _ & Hled & Hw).
    rewrite Hled, Hlc, !indicator_writes_app, Hw.
    rewrite (proj2 (tick_prefix_quiet env)), (proj2 (detection_report_quiet _)).
    repeat split. }
  split; [intros Hg; apply Hoff; assumption|].
  rewrite !run_state_cons. cbn [run skip res_state perform].
  apply Hoff; reflexivity || exact Hrun.
Qed.

Lemma error_indicator_off_without_timeout_witness :
  led (res_state
         (run [ RadioEvent ELTRES_BOARD_EVT_GNSS_RECEIVE;
                Tick (Sample.good_tick 1 Sample.f_one 1000) ]
            (set_led LED_ERR HIGH
               (set_gnss_recevie_timeout true Sample.started)))) LED_ERR = LOW.
Proof.
  exact (proj2 (error_indicator_off_without_timeout
                  (Sample.good_tick 1 Sample.f_one 1000)
                  (set_led LED_ERR HIGH
                     (set_gnss_recevie_timeout true Sample.started))
                  eq_refl eq_refl)).
Defined.

(** ** The tensor seen by the inference *)

Lemma fill_input_is_map (camera_buf : list Z) (input : list spec_float) :
  valid_frame camera_buf = true ->
  length input = Z.to_nat (INPUT_WIDTH * INPUT_HEIGHT) ->
  fill_input camera_buf input = List.map normalize camera_buf.
Proof.
  intros Hvalid Hlen.
  unfold valid_frame in Hvalid. apply andb_prop in Hvalid as [Hbuf Hpix].
  apply Nat.eqb_eq in Hbuf.
  destruct (fill_input_gen_spec (Z.to_nat INPUT_WIDTH) (Z.to_nat INPUT_HEIGHT)
              camera_buf input) as (Hl & Hin & Hout).
  fold (fill_input camera_buf input) in Hl, Hin, Hout.
  change (Z.to_nat INPUT_HEIGHT * Z.to_nat INPUT_WIDTH)%nat
    with (Z.to_nat (INPUT_WIDTH * INPUT_HEIGHT)) in Hin, Hout.
  change (List.map normalize camera_buf) with (normalize <$> camera_buf).
  apply list_eq. intros i. rewrite list_lookup_fmap.
  destruct (Nat.lt_ge_cases i (Z.to_nat (INPUT_WIDTH * INPUT_HEIGHT))) as [Hi|Hi].
  - rewrite Hin by lia.
    destruct (lookup_lt_is_Some_2 camera_buf i) as [p Hp]; [lia|].
    unfold read_u8. rewrite Hp. cbn [fmap option_fmap option_map].
    assert (Hin' : In p camera_buf).
    { apply list_elem_of_In. apply list_elem_of_lookup. eauto. }
    pose proof (proj1 (List.forallb_forall _ _) Hpix p Hin') as H.
    apply andb_prop in H as [H1 H2]. rewrite u8_small by lia. reflexivity.
  - rewrite Hout by lia.
    rewrite (proj2 (lookup_ge_None input i)) by lia.
    rewrite (proj2 (lookup_ge_None camera_buf i)) by lia. reflexivity.
Qed.

(** On a tick that reaches the [switch] with a valid frame, the tensor
    bound to the model is exactly the frame with every pixel normalized, in
    order: nothing of the previous tick's tensor survives, so the inference
    output depends on the current frame only, and the tensor keeps its
    size from tick to tick. *)
Theorem tensor_fully_overwritten (env : tick_env) (s : State) :
  valid_frame (camera_buf env) = true ->
  length (input_data s) = Z.to_nat (INPUT_WIDTH * INPUT_HEIGHT) ->
  reaches_switch env = true ->
  fill_input (camera_buf env) (input_data s) = List.map normalize (camera_buf env) /\
  input_data (res_state (loop env s)) = List.map normalize (camera_buf env) /\
  tick_value env s = dnn_forward env (List.map normalize (camera_buf env)) /\
  length (input_data (res_state (loop env s))) =
    Z.to_nat (INPUT_WIDTH * INPUT_HEIGHT).
Proof.
  intros Hvalid Hlen Hreach.
  pose proof (fill_input_is_map (camera_buf env) (input_data s) Hvalid Hlen) as Hmap.
  assert (Hb : input_data (before_switch env s) =
               List.map normalize (camera_buf env)) by exact Hmap.
  assert (Hs : input_data (res_state (loop env s)) =
               List.map normalize (camera_buf env)).
  { rewrite loop_state, Hreach.
    destruct (program_sts s =? PROGRAM_STS_RUNNING); [|exact Hb].
    pose proof (payload_handoff_frame env
                  (res_state (error_indicator_update env (before_switch env s))))
      as F.
    cbv zeta in F. destruct F as (_ & _ & _ & _ & _ & _ & Hi & _).
    pose proof (error_indicator_frame env (before_switch env s)) as E.
    cbv zeta in E. destruct E as (_ & _ & _ & _ & _ & _ & _ & Hi' & _).
    rewrite Hi, Hi'. exact Hb. }
  split; [exact Hmap|]. split; [exact Hs|].
  split; [unfold tick_value; rewrite Hb; reflexivity|].
  rewrite Hs, List.length_map.
  unfold valid_frame in Hvalid. apply andb_prop in Hvalid as [Hbuf _].
  now apply Nat.eqb_eq in Hbuf.
Qed.

Lemma tensor_fully_overwritten_witness :
  input_data (res_state (loop (Sample.good_tick 1 Sample.f_one 1000)
                           Sample.started)) =
  List.map normalize (Sample.flat_frame 128).
Proof.
  refine (proj1 (proj2 (tensor_fully_overwritten
                          (Sample.good_tick 1 Sample.f_one 1000)
                          Sample.started _ _ _))).
  - vm_compute. reflexivity.
  - vm_compute. reflexivity.
  - reflexivity.
Defined.

(** ** Normalization keeps the order of intensities *)

Lemma strictly_increasing_lookup (l : list spec_float) :
  strictly_increasing l = true ->
  forall i j a b,
    (i < j)%nat -> l !! i = Some a -> l !! j = Some b -> SFltb a b = true.
Proof.
  induction l as [|v rest IH]; intros Hinc i j a b Hij Ha Hb.
  - discriminate Ha.
  - cbn [strictly_increasing] in Hinc. apply andb_prop in Hinc as [Hv Hrest].
    destruct j as [|j]; [lia|]. cbn in Hb.
    destruct i as [|i].
    + cbn in Ha. injection Ha as <-.
      apply (proj1 (List.forallb_forall _ _) Hv).
      apply list_elem_of_In. apply list_elem_of_lookup. eauto.
    + cbn in Ha. apply (IH Hrest i j); [lia | assumption | assumption].
Qed.

Lemma normalized_pixels_increasing :
  strictly_increasing (List.map normalize pixel_values) = true.
Proof. vm_compute. reflexivity. Qed.

Lemma normalized_pixel_lookup (p : Z) :
  0 <= p <= 255 ->
  List.map normalize pixel_values !! Z.to_nat p = Some (normalize p).
Proof.
  intros Hp. unfold pixel_values.
  change (List.map normalize (List.map Z.of_nat (List.seq 0 256)))
    with (normalize <$> (Z.of_nat <$> List.seq 0 256)).
  rewrite !list_lookup_fmap, lookup_seq_lt by lia.
  cbn [fmap option_fmap option_map Nat.add]. now rewrite Z2Nat.id by lia.
Qed.

Lemma SFltb_irrefl (v : spec_float) : SFltb v v = false.
Proof.
  unfold SFltb, SFcompare.
  destruct v as [[]|[]| |[] m e]; try reflexivity;
    rewrite Z.compare_refl, Pos.compare_cont_refl; reflexivity.
Qed.

(** Scaling keeps the order of the pixel intensities: a brighter pixel
    always gives a strictly larger sample, so no two of the 256 intensities
    collapse to the same [float]. *)
Theorem normalize_strictly_increasing (p q : Z) :
  0 <= p -> p < q -> q <= 255 ->
  SFltb (normalize p) (normalize q) = true /\
  normalize p <> normalize q.
Proof.
  intros Hp Hpq Hq.
  assert (Hlt : SFltb (normalize p) (normalize q) = true).
  { apply (strictly_increasing_lookup _ normalized_pixels_increasing
             (Z.to_nat p) (Z.to_nat q)); [lia | |];
      apply normalized_pixel_lookup; lia. }
  split; [exact Hlt|].
  intros Heq. rewrite Heq, SFltb_irrefl in Hlt. discriminate Hlt.
Qed.

Lemma normalize_strictly_increasing_witness :
  SFltb (normalize 254) (normalize 255) = true.
Proof.
  refine (proj1 (normalize_strictly_increasing 254 255 _ _ _)); lia.
Defined.

(** ** Reading the payload back *)

Lemma mod_shift_18 (c c' : Z) :
  (c - 18) mod 2 ^ 32 = (c' - 18) mod 2 ^ 32 <-> c mod 2 ^ 32 = c' mod 2 ^ 32.
Proof.
  change (2 ^ 32) with 4294967296.
  split; intros H; Z.div_mod_to_equations; lia.
Qed.

Lemma decode_encode (f : Z) (g : eltres_board_gga_info) (c : Z) :
  decode_flag (encode f g c) = Some (f mod 256) /\
  decode_time (encode f g c) = Some ((c - 18) mod 2 ^ 32) /\
  decode_quality (encode f g c) = Some (m_pos_status g mod 256).
Proof.
  rewrite encode_bytes. unfold decode_flag, decode_time, decode_quality.
  cbn [lookup list_lookup].
  rewrite be32_bytes by (apply Z.mod_pos_bound; lia).
  repeat split.
Qed.

(** The three fields of a payload can be read back: byte 1 gives the flag
    modulo 256, bytes 10 to 13 give the radio clock minus 18 modulo 2^32
    (so adding 18 gives the clock back modulo 2^32, and exactly for a clock
    from 18 up to 2^32 + 17), and byte 15 gives the fix quality modulo 256.
    Two payloads are equal exactly when these three values agree; nothing
    else of the inputs reaches the payload. *)
Theorem payload_round_trip (f f' : Z) (g g' : eltres_board_gga_info) (c c' : Z) :
  decode_flag (encode f g c) = Some (f mod 256) /\
  decode_time (encode f g c) = Some ((c - 18) mod 2 ^ 32) /\
  decode_quality (encode f g c) = Some (m_pos_status g mod 256) /\
  (forall t, decode_time (encode f g c) = Some t ->
             (t + 18) mod 2 ^ 32 = c mod 2 ^ 32) /\
  (18 <= c < 2 ^ 32 + 18 -> decode_time (encode f g c) = Some (c - 18)) /\
  (encode f g c = encode f' g' c' <->
   f mod 256 = f' mod 256 /\
   c mod 2 ^ 32 = c' mod 2 ^ 32 /\
   m_pos_status g mod 256 = m_pos_status g' mod 256).
Proof.
  destruct (decode_encode f g c) as (Hf & Ht & Hq).
  destruct (decode_encode f' g' c') as (Hf' & Ht' & Hq').
  do 3 (split; [assumption|]).
  split.
  { intros t Hdec. rewrite Ht in Hdec. injection Hdec as <-.
    change (2 ^ 32) with 4294967296. Z.div_mod_to_equations. lia. }
  split.
  { intros Hc. rewrite Ht. f_equal. apply Z.mod_small. lia. }
  split.
  - intros Heq. rewrite Heq in Hf, Ht, Hq.
    rewrite Hf' in Hf. rewrite Ht' in Ht. rewrite Hq' in Hq.
    injection Hf as Hf. injection Ht as Ht. injection Hq as Hq.
    split; [congruence|]. split; [|congruence].
    apply mod_shift_18. congruence.
  - intros (Ef & Ec & Eq). apply mod_shift_18 in Ec.
    rewrite !encode_bytes, Ef, Ec, Eq. reflexivity.
Qed.

Lemma payload_round_trip_witness :
  decode_time (encode 1 gga_zero 1000018) = Some 1000000.
Proof.
  refine (proj1 (proj2 (proj2 (proj2 (proj2
            (payload_round_trip 1 1 gga_zero gga_zero 1000018 1000018))))) _).
  lia.
Defined.

(** ** The payload buffer *)

Lemma last_handoff_app (es fs : list effect) (current : list Z) :
  last_handoff (es ++ fs) current = last_handoff fs (last_handoff es current).
Proof. apply List.fold_left_app. Qed.

Lemma last_handoff_filter (es : list effect) :
  forall current, last_handoff es current = last_handoff (handoffs es) current.
Proof.
  induction es as [|e es IH]; intros current; [reflexivity|].
  destruct e; cbn; apply IH.
Qed.

Lemma loop_payload (env : tick_env) (s : State) :
  payload (res_state (loop env s)) =
  if reaches_switch env && (program_sts s =? PROGRAM_STS_RUNNING)
     && event_send_ready s
  then encode (s16 (random_0_2 env)) (last_gga_info s) (gnss_clock env)
  else payload s.
Proof.
  rewrite loop_state.
  destruct (reaches_switch env); cbn [andb]; [|reflexivity].
  destruct (program_sts s =? PROGRAM_STS_RUNNING); cbn [andb]; [|reflexivity].
  pose proof (error_indicator_frame env (before_switch env s)) as E.
  cbv zeta in E. destruct E as (_ & _ & _ & Hr & Hp & Hg & Hf & _).
  change (event_send_ready (before_switch env s)) with (event_send_ready s) in Hr.
  destruct (event_send_ready s) eqn:Hs.
  - rewrite (payload_handoff_ready env _ Hr). cbn [res_state payload set_payload_buf].
    rewrite Hg, Hf. reflexivity.
  - rewrite (payload_handoff_idle env _ Hr). cbn [res_state]. exact Hp.
Qed.

Lemma perform_payload (a : action) (s : State) :
  payload (res_state (perform a s)) =
  last_handoff (res_effects (perform a s)) (payload s).
Proof.
  rewrite last_handoff_filter.
  destruct a as [env | event | gga_info]; cbn [perform].
  - rewrite loop_payload, loop_handoffs_any.
    destruct (reaches_switch env && (program_sts s =? PROGRAM_STS_RUNNING)
              && event_send_ready s); reflexivity.
  - destruct event; reflexivity.
  - pose proof (gga_event_cb_frame gga_info s) as F. cbv zeta in F.
    destruct F as (_ & -> & -> & _). reflexivity.
Qed.

(** The payload buffer always holds the payload of the latest hand-off:
    it is all zero until the first hand-off after power-on, and between
    hand-offs nothing writes to it, whatever ticks, events and fix updates
    happen. *)
Theorem payload_buffer_is_latest_handoff (env : setup_env)
    (actions : list action) (s : State) :
  payload (res_state (run actions s)) =
    last_handoff (res_effects (run actions s)) (payload s) /\
  payload (res_state (program env actions)) =
    last_handoff (res_effects (program env actions)) (replicate 16 0).
Proof.
  assert (Hrun : forall acts s0,
             payload (res_state (run acts s0)) =
             last_handoff (res_effects (run acts s0)) (payload s0)).
  { induction acts as [|a rest IH]; intros s0; [reflexivity|].
    rewrite run_state_cons, run_effects_cons, last_handoff_app, IH.
    rewrite perform_payload. reflexivity. }
  split; [apply Hrun|].
  destruct (setup_quiet env initial_state) as [Hq Hp].
  unfold program, and_then.
  destruct (setup env initial_state) as [[] s1 e1] eqn:Hs;
    cbn [res_state res_effects] in *.
  - pose proof (Hrun actions s1) as H.
    destruct (run actions s1) as [st s2 e2]. cbn [res_state res_effects] in *.
    rewrite last_handoff_app, (last_handoff_filter e1), Hq. cbn [last_handoff fold_left].
    rewrite H, Hp. reflexivity.
  - rewrite (last_handoff_filter e1), Hq. exact Hp.
Qed.

(** ** Reporting a detection *)

Lemma detection_lines_app (es fs : list effect) :
  detection_lines (es ++ fs) = detection_lines es ++ detection_lines fs.
Proof. apply List.filter_app. Qed.

Lemma state_switch_no_detection_line (env : tick_env) (s : State) :
  detection_lines (res_effects (state_switch env s)) = [].
Proof.
  destruct (Z.eq_dec (program_sts s) PROGRAM_STS_RUNNING) as [Hrun|Hrun].
  - rewrite (state_switch_running _ _ Hrun). unfold and_then.
    assert (He : exists s1 e1,
               error_indicator_update env s = Result Going s1 e1 /\
               detection_lines e1 = []).
    { destruct (gnss_recevie_timeout s) eqn:Hg.
      - destruct (1000 <=? u64 (u64 (millis env) - last_change_blink_time s)) eqn:Hd.
        + rewrite (error_indicator_due env s Hg Hd). eauto.
        + rewrite (error_indicator_wait env s Hg Hd). eauto.
      - rewrite (error_indicator_clear env s Hg). eauto. }
    destruct He as (s1 & e1 & -> & He1).
    destruct (event_send_ready s1) eqn:Hr.
    + rewrite (payload_handoff_ready env s1 Hr). cbn [res_effects].
      rewrite !detection_lines_app, He1. reflexivity.
    + rewrite (payload_handoff_idle env s1 Hr). cbn [res_effects].
      rewrite detection_lines_app, He1. reflexivity.
  - rewrite (state_switch_not_running _ _ Hrun). reflexivity.
Qed.

Lemma loop_abandoned_no_detection_line (env : tick_env) (s : State) :
  reaches_switch env = false ->
  detection_lines (res_effects (loop env s)) = [].
Proof.
  unfold reaches_switch, loop. intros H.
  destruct (picture_available env); cbn [negb andb] in *; [|reflexivity].
  destruct (clip_err env =? CAM_ERR_SUCCESS); cbn [negb andb] in *; [|reflexivity].
  rewrite H. reflexivity.
Qed.

(** A tick announces a detection on the serial monitor exactly once when
    it reaches the [switch] and the inference output is nonzero, and not at
    all otherwise, in every operating state.  Nonzero is the [float] test of
    the [if]: only the two zeros count as no detection, so a NaN and any
    value however small are reported as a detection. *)
Theorem detection_reported_iff_nonzero (env : tick_env) (s : State)
    (v : spec_float) :
  (Flt.truthy v = false <-> v = S754_zero false \/ v = S754_zero true) /\
  Flt.truthy S754_nan = true /\
  length (detection_lines (res_effects (loop env s))) =
    (if reaches_switch env && Flt.truthy (tick_value env s) then 1 else 0)%nat.
Proof.
  split.
  { split.
    - destruct v as [[]|[]| |[] m e]; cbn; intros H; auto; discriminate H.
    - intros [-> | ->]; reflexivity. }
  split; [reflexivity|].
  destruct (reaches_switch env) eqn:Hreach; cbn [andb].
  - rewrite (loop_reaching _ _ Hreach). cbn [res_effects].
    rewrite !detection_lines_app, state_switch_no_detection_line.
    unfold detection_report.
    destruct (Flt.truthy (tick_value env s)); reflexivity.
  - rewrite (loop_abandoned_no_detection_line env s Hreach). reflexivity.
Qed.
